(** * Trace queries and trace response formatting of the OpenSearch datasource

    A shallow embedding of

    - [src/traces/formatTraces.ts]: [createListTracesDataFrame],
      [transformTraceResponse], [spanHasError], [getStackTraces],
      [convertToKeyValue], [transformEventsIntoLogs];
    - [src/Traces.ts] and its later draft: [createDefaultTraceQuery],
      [createOneTrace], [createSingleTraceQuery], [createTracesDataFrame];
    - [src/components/QueryEditor/Traces.ts]: [createDefaultTraceQuery];
    - the part of lodash's [set] that [transformTraceResponse] calls.

    The code is TypeScript over JSON data that came from OpenSearch, so the
    embedding is dynamically typed where the code is: a [value] is a JSON
    tree, property reads follow the language's rules (reading a property of
    [undefined] throws a [TypeError]), and a function that can throw returns
    a [completion].

    Modelling boundaries:

    - numbers are kept abstract ([JsNumber], [JsEngine]): IEEE doubles,
      their printing, [Date] parsing and numeric coercion belong to the
      engine;
    - a string is a sequence of one-byte characters;
    - an object is the list of its own properties in the order in which the
      engine enumerates them.  For names that are not integers this is the
      order of insertion, and [obj_set] keeps it.  The engine enumerates
      integer names first, in ascending order; [obj_set] does not move
      them, so a statement about the order of properties excludes integer
      names;
    - the built-in prototypes are not data.  The methods the code calls
      ([some], [filter], [map], [toString], [join]) are modelled where it
      calls them, together with their being hidden by an own property of
      the same name.  A lodash path that walks into a member inherited from
      a prototype ([toString.x]) reaches a function object that every
      object of the realm shares, and a path that goes on under the
      [length] of an array goes on inside a number: such a call, and
      whatever follows it, has the completion [Beyond], of which no
      statement says anything;
    - the JSON trees are values, not references.  [set] re-uses the
      sub-objects of the raw document and updates them in place; in a tree
      no object occurs twice, so nothing else can see the update. *)

From Stdlib Require Import List String Ascii Bool NArith ZArith QArith Lia.
From Stdlib Require Import DecimalString DecimalN.
Import ListNotations.

Local Close Scope Q_scope.
Local Open Scope string_scope.
Local Open Scope list_scope.

Set Warnings "-register-all".

(** ** Numbers of the engine *)

Class JsNumber : Type := {
  number : Type;
  (** the double nearest to an integer (number literals, [length]) *)
  num_of_Z : Z -> number;
  (** [ToBoolean] on numbers: false for [+0], [-0] and [NaN] *)
  num_truthy : number -> bool;
  num_truthy_of_Z : forall z, num_truthy (num_of_Z z) = negb (Z.eqb z 0);
  (** [Number::toString] *)
  Number_toString : number -> string;
  (** [*] *)
  num_mul : number -> number -> number;
  (** the literal [0.000001] *)
  num_micro : number;
  (** [SameValueZero] on numbers: [NaN] is the same as [NaN], and [+0]
      the same as [-0] *)
  num_same : number -> number -> bool;
  num_same_sound : forall a b,
    num_same a b = true ->
    a = b \/ (num_truthy a = false /\ num_truthy b = false);
  (** the array length a number stands for: itself, if it is an integer
      from 0 to 2^32 - 1 *)
  num_length : number -> option nat;
}.

(** ** Values *)

Section Values.
Context {JN : JsNumber}.

(** A JSON tree.  An array keeps its elements ([None] is a hole, which the
    array methods skip) and, like every JavaScript array, may also carry
    named properties. *)
Inductive value : Type :=
| VUndefined
| VNull
| VBool (b : bool)
| VNum (n : number)
| VStr (s : string)
| VObject (props : list (string * value))
| VArray (elems : list (option value)) (props : list (string * value)).

End Values.

(** ** Exceptions *)

Inductive jsError : Type :=
| TypeError
| RangeError.

Definition error_name (e : jsError) : string :=
  match e with
  | TypeError => "TypeError"
  | RangeError => "RangeError"
  end.

(** How an evaluation ends: with a value, with an exception, or [Beyond]
    what the embedding follows.  [Beyond] is where a call of [set] comes to
    depend on the built-in objects of the realm (a path that walks into an
    inherited member, or into the [length] of an array); it is neither a
    result nor an exception, and it is kept until the end of the call,
    because the built-in objects may have been changed for everything that
    runs after. *)
Inductive completion (A : Type) : Type :=
| Normal (a : A)
| Throw (e : jsError)
| Beyond.

Arguments Normal {A} a.
Arguments Throw {A} e.
Arguments Beyond {A}.

Definition bind {A B : Type} (c : completion A) (k : A -> completion B)
  : completion B :=
  match c with
  | Normal a => k a
  | Throw e => Throw e
  | Beyond => Beyond
  end.

Notation "x <- c ;; k" := (bind c (fun x => k))
  (at level 61, c at next level, right associativity).

Section Runtime.
Context {JN : JsNumber}.

(** [Array.prototype.map] over a callback that may throw: the first throw
    aborts the whole call. *)
Fixpoint mapM {A B : Type} (f : A -> completion B) (l : list A)
  : completion (list B) :=
  match l with
  | [] => Normal []
  | x :: r => y <- f x ;; ys <- mapM f r ;; Normal (y :: ys)
  end.

(** *** Own properties *)

Fixpoint own_get (props : list (string * value)) (k : string) : option value :=
  match props with
  | [] => None
  | (k', v) :: r => if String.eqb k' k then Some v else own_get r k
  end.

Definition has_own (props : list (string * value)) (k : string) : bool :=
  match own_get props k with
  | Some _ => true
  | None => false
  end.

(** [o[k] = v] on the property list: an existing property keeps its place,
    a new one goes last. *)
Fixpoint obj_set (props : list (string * value)) (k : string) (v : value)
  : list (string * value) :=
  match props with
  | [] => [(k, v)]
  | (k', v') :: r =>
      if String.eqb k' k then (k', v) :: r else (k', v') :: obj_set r k v
  end.

(** *** Array indices *)

Definition N_to_string (n : N) : string :=
  NilEmpty.string_of_uint (N.to_uint n).

(** The canonical decimal strings: 0, 1, 2, ... (lodash's [reIsUint],
    the engine's canonical numeric strings). *)
Definition uint_of_key (k : string) : option N :=
  match NilEmpty.uint_of_string k with
  | Some d =>
      let n := N.of_uint d in
      if String.eqb (N_to_string n) k then Some n else None
  | None => None
  end.

(** An array index is an integer below 2^32 - 1. *)
Definition array_index (k : string) : option nat :=
  match uint_of_key k with
  | Some n => if N.ltb n 4294967295 then Some (N.to_nat n) else None
  | None => None
  end.

Definition elem_get (elems : list (option value)) (i : nat) : option value :=
  match nth_error elems i with
  | Some (Some v) => Some v
  | _ => None
  end.

(** [a[i] = v]: inside the array the slot is replaced, past its end the
    array grows and the slots in between are holes. *)
Fixpoint elem_set (elems : list (option value)) (i : nat) (v : value)
  : list (option value) :=
  match elems, i with
  | [], O => [Some v]
  | [], S j => None :: elem_set [] j v
  | _ :: r, O => Some v :: r
  | x :: r, S j => x :: elem_set r j v
  end.

Definition present {A : Type} (l : list (option A)) : list A :=
  flat_map (fun o => match o with Some a => [a] | None => [] end) l.

Fixpoint index_keys (elems : list (option value)) (i : N) : list string :=
  match elems with
  | [] => []
  | Some _ :: r => N_to_string i :: index_keys r (N.succ i)
  | None :: r => index_keys r (N.succ i)
  end.

(** *** The abstract operations the code relies on *)

Definition ToBoolean (v : value) : bool :=
  match v with
  | VUndefined | VNull => false
  | VBool b => b
  | VNum n => num_truthy n
  | VStr s => negb (String.eqb s "")
  | VObject _ | VArray _ _ => true
  end.

Definition nullish (v : value) : bool :=
  match v with
  | VUndefined | VNull => true
  | _ => false
  end.

Definition num_of_nat (n : nat) : number := num_of_Z (Z.of_nat n).

(** [v[k]] and [v.k], for the names the code reads: the keys
    [Object.keys] gave it, and names that no prototype provides ([events],
    [attributes], [name], ...).  A string has its [length] and its
    characters, an array its [length] and its elements. *)
Definition Get (v : value) (k : string) : completion value :=
  match v with
  | VUndefined | VNull => Throw TypeError
  | VBool _ | VNum _ => Normal VUndefined
  | VStr s =>
      if String.eqb k "length" then Normal (VNum (num_of_nat (String.length s)))
      else match array_index k with
           | Some i =>
               match String.get i s with
               | Some c => Normal (VStr (String c EmptyString))
               | None => Normal VUndefined
               end
           | None => Normal VUndefined
           end
  | VObject props =>
      match own_get props k with
      | Some x => Normal x
      | None => Normal VUndefined
      end
  | VArray elems props =>
      if String.eqb k "length" then Normal (VNum (num_of_nat (List.length elems)))
      else match array_index k with
           | Some i =>
               match elem_get elems i with
               | Some x => Normal x
               | None => Normal VUndefined
               end
           | None =>
               match own_get props k with
               | Some x => Normal x
               | None => Normal VUndefined
               end
           end
  end.

(** [v?.k] *)
Definition GetOpt (v : value) (k : string) : completion value :=
  if nullish v then Normal VUndefined else Get v k.

(** The own enumerable string keys, as [Object.keys] and the spread syntax
    see them: in the order of the list, which is the engine's order when
    no name of the object is an integer (an array lists its indices
    first). *)
Definition own_keys (v : value) : list string :=
  match v with
  | VObject props => map fst props
  | VArray elems props => index_keys elems 0 ++ map fst props
  | VStr s => map (fun i => N_to_string (N.of_nat i)) (seq 0 (String.length s))
  | _ => []
  end.

Definition Object_keys (v : value) : completion (list string) :=
  if nullish v then Throw TypeError else Normal (own_keys v).

(** [ToString], as a template literal applies it.  A JSON object has no
    callable property of its own: an own [toString] hides the built-in one
    and the conversion throws; an own [join] makes an array print as an
    object. *)
Fixpoint ToString (v : value) : completion string :=
  match v with
  | VUndefined => Normal "undefined"
  | VNull => Normal "null"
  | VBool true => Normal "true"
  | VBool false => Normal "false"
  | VNum n => Normal (Number_toString n)
  | VStr s => Normal s
  | VObject props =>
      if has_own props "toString" then Throw TypeError
      else Normal "[object Object]"
  | VArray elems props =>
      if has_own props "toString" then Throw TypeError
      else if has_own props "join" then Normal "[object Array]"
      else
        (fix join (l : list (option value)) : completion string :=
           match l with
           | [] => Normal ""
           | o :: r =>
               s <- match o with
                    | None | Some VUndefined | Some VNull => Normal ""
                    | Some x => ToString x
                    end ;;
               match r with
               | [] => Normal s
               | _ :: _ => t <- join r ;; Normal (s ++ "," ++ t)%string
               end
           end) elems
  end.

End Runtime.

(** ** The engine's conversions the code calls

    A conversion of a JSON tree to a number returns, or it throws a
    [TypeError] (the tree has a property of its own named [toString] or
    [valueOf], which is not a function): [None] stands for the throw. *)

Class JsEngine {JN : JsNumber} : Type := {
  (** [ToNumber] *)
  number_of : value -> option number;
  (** the time value of [new Date(v)] *)
  time_of : value -> option number;
}.

Section Conversions.
Context {JN : JsNumber} {JE : JsEngine}.

Definition converted (o : option number) : completion number :=
  match o with
  | Some n => Normal n
  | None => Throw TypeError
  end.

(** the coercion [*] applies to its operand, and an array to a value
    assigned to its [length] *)
Definition ToNumber (v : value) : completion number :=
  converted (number_of v).

(** [new Date(v).getTime()] *)
Definition Date_getTime (v : value) : completion number :=
  converted (time_of v).

End Conversions.

(** ** lodash: [set]

    [set(object, path, value)] as [transformTraceResponse] calls it, with a
    string path.  The path syntax is lodash's: [a.b], [a[0].b], [a['b.c']].
    Strings are read character by character, the way the library's regular
    expressions do; each scanner below quotes the expression it follows. *)

Module Lodash.
Section Lodash.
Context {JN : JsNumber} {JE : JsEngine}.

Definition is_word (c : ascii) : bool :=
  let n := nat_of_ascii c in
  (Nat.leb 48 n && Nat.leb n 57) || (Nat.leb 65 n && Nat.leb n 90)
  || (Nat.leb 97 n && Nat.leb n 122) || Nat.eqb n 95.

Definition is_digit (c : ascii) : bool :=
  let n := nat_of_ascii c in Nat.leb 48 n && Nat.leb n 57.

Definition is_quote (c : ascii) : bool :=
  Ascii.eqb c "034" || Ascii.eqb c "'".

(** what [.] does not match *)
Definition line_terminator (c : ascii) : bool :=
  Ascii.eqb c "010" || Ascii.eqb c "013".

(** [reIsPlainProp = /^\w*$/] *)
Fixpoint reIsPlainProp (s : string) : bool :=
  match s with
  | EmptyString => true
  | String c r => is_word c && reIsPlainProp r
  end.

(** [[^[\]]*\]] at the head of [s] *)
Fixpoint closes_plain (s : string) : bool :=
  match s with
  | EmptyString => false
  | String c r =>
      if Ascii.eqb c "]" then true
      else if Ascii.eqb c "[" then false
      else closes_plain r
  end.

(** [(?:(?!q)[^\\]|\\.)*?q\]] at the head of [s]; on success, the text
    between the quotes. *)
Fixpoint quoted_body (q : ascii) (s : string) : option string :=
  match s with
  | EmptyString => None
  | String c r =>
      if Ascii.eqb c q then
        match r with
        | String "]" _ => Some EmptyString
        | _ => None
        end
      else if Ascii.eqb c "\" then
        match r with
        | String d r' =>
            if line_terminator d then None
            else option_map (fun b => String c (String d b)) (quoted_body q r')
        | EmptyString => None
        end
      else option_map (String c) (quoted_body q r)
  end.

(** [reIsDeepProp = /\.|\[(?:[^[\]]*|([\x22'])(?:(?!\1)[^\\]|\\.)*?\1)\]/]
    (the class [[\x22']] is the two quote characters) *)
Fixpoint reIsDeepProp (s : string) : bool :=
  match s with
  | EmptyString => false
  | String c r =>
      if Ascii.eqb c "." then true
      else if Ascii.eqb c "["
              && (closes_plain r
                  || match r with
                     | String q r' =>
                         is_quote q
                         && match quoted_body q r' with
                            | Some _ => true
                            | None => false
                            end
                     | EmptyString => false
                     end)
      then true
      else reIsDeepProp r
  end.

(** [key in Object(object)].  [isKey] asks this of a key that is not a
    plain name, which no member of a prototype is: the own properties
    decide. *)
Definition HasProperty (object : value) (key : string) : bool :=
  match object with
  | VObject props => has_own props key
  | VArray elems props =>
      match array_index key with
      | Some i => match elem_get elems i with Some _ => true | None => false end
      | None => has_own props key
      end
  | _ => false
  end.

Definition isKey (key : string) (object : value) : bool :=
  reIsPlainProp key || negb (reIsDeepProp key)
  || (negb (nullish object) && HasProperty object key).

(** [reEscapeChar = /\\(\\)?/g], replaced by ['$1'] *)
Fixpoint unescape (s : string) : string :=
  match s with
  | EmptyString => EmptyString
  | String c r =>
      if Ascii.eqb c "\" then
        match r with
        | String "\" r' => String "\" (unescape r')
        | _ => unescape r
        end
      else String c (unescape r)
  end.

Fixpoint span_digits (s : string) : string * string :=
  match s with
  | EmptyString => (EmptyString, EmptyString)
  | String c r =>
      if is_digit c then let (d, t) := span_digits r in (String c d, t)
      else (EmptyString, s)
  end.

(** [-?\d+(?:\.\d+)?\]] at the head of [s]; on success, the number's text *)
Definition bracket_number (s : string) : option string :=
  let (sign, s1) :=
    match s with
    | String "-" r => ("-", r)
    | _ => ("", s)
    end in
  let (int, s2) := span_digits s1 in
  if String.eqb int "" then None
  else
    match s2 with
    | String "]" _ => Some (sign ++ int)%string
    | String "." s3 =>
        let (frac, s4) := span_digits s3 in
        if String.eqb frac "" then None
        else match s4 with
             | String "]" _ => Some (sign ++ int ++ "." ++ frac)%string
             | _ => None
             end
    | _ => None
    end.

(** The second alternative of [rePropName], after its opening bracket:
    the path segment it yields and the number of characters it takes. *)
Definition bracket (s : string) : option (string * nat) :=
  match bracket_number s with
  | Some n => Some (n, S (String.length n))
  | None =>
      match s with
      | String q r =>
          if is_quote q then
            match quoted_body q r with
            | Some b => Some (unescape b, 3 + String.length b)
            | None => None
            end
          else None
      | EmptyString => None
      end
  end.

Definition strip_separator (s : string) : option string :=
  match s with
  | String "." r => Some r
  | String "[" (String "]" r) => Some r
  | _ => None
  end.

(** The third alternative of [rePropName]:
    [(?=(?:\.|\[\])(?:\.|\[\]|$))] at the head of [s] *)
Definition empty_segment (s : string) : bool :=
  match strip_separator s with
  | Some EmptyString => true
  | Some r => match strip_separator r with Some _ => true | None => false end
  | None => false
  end.

Definition is_delimiter (c : ascii) : bool :=
  Ascii.eqb c "." || Ascii.eqb c "[" || Ascii.eqb c "]".

Definition flush (run : string) : list string :=
  if String.eqb run "" then [] else [run].

(** [string.replace(rePropName, ...)]: the matches of
    [/[^.[\]]+|\[(?:(-?\d+(?:\.\d+)?)|([\x22'])((?:(?!\2)[^\\]|\\.)*?)\2)\]|(?=(?:\.|\[\])(?:\.|\[\]|$))/g]
    from left to right.  [run] is the first alternative's match so far,
    [skip] the characters left of a bracket already matched. *)
Fixpoint scan (s : string) (run : string) (skip : nat) : list string :=
  match s with
  | EmptyString => flush run
  | String c r =>
      match skip with
      | S k => scan r "" k
      | O =>
          if is_delimiter c then
            flush run ++
            match (if Ascii.eqb c "[" then bracket r else None) with
            | Some (segment, len) => segment :: scan r "" len
            | None =>
                (if empty_segment s then [""] else []) ++ scan r "" 0
            end
          else scan r (run ++ String c "")%string 0
      end
  end.

Definition stringToPath (s : string) : list string :=
  (match s with
   | String "." _ => [""]
   | _ => []
   end) ++ scan s "" 0.

Definition castPath (path : string) (object : value) : list string :=
  if isKey path object then [path] else stringToPath path.

(** on strings [toKey] is the identity *)
Definition toKey (segment : string) : string := segment.

Definition isObject (v : value) : bool :=
  match v with
  | VObject _ | VArray _ _ => true
  | _ => false
  end.

(** [isIndex(value)]: [reIsUint] and [value < MAX_SAFE_INTEGER] *)
Definition isIndex (segment : string) : bool :=
  match uint_of_key segment with
  | Some n => N.ltb n 9007199254740991
  | None => false
  end.

(** *** What an object inherits

    The names every object inherits from [Object.prototype] (ECMAScript,
    with its Annex B).  Each of them but [__proto__] holds a function, which
    is an object that all the objects of the realm share. *)
Definition Object_prototype : list string :=
  ["constructor"; "__defineGetter__"; "__defineSetter__"; "hasOwnProperty";
   "__lookupGetter__"; "__lookupSetter__"; "isPrototypeOf";
   "propertyIsEnumerable"; "toString"; "valueOf"; "__proto__";
   "toLocaleString"].

Definition inherited (key : string) : bool :=
  existsb (String.eqb key) Object_prototype.

(** [hasOwnProperty.call(object, key)], with the property's value.  The
    [length] of an array is a property of its own. *)
Definition own_value (object : value) (key : string) : option value :=
  match object with
  | VObject props => own_get props key
  | VArray elems props =>
      if String.eqb key "length"
      then Some (VNum (num_of_nat (List.length elems)))
      else match array_index key with
           | Some i => elem_get elems i
           | None => own_get props key
           end
  | _ => None
  end.

(** [key] may name a member that [nested] inherits: for an object, the
    names of [Object.prototype]; for an array, whose prototype grows with
    the editions of the language, every name that is not an index. *)
Definition may_inherit (nested : value) (key : string) : bool :=
  match nested with
  | VObject _ => inherited key
  | VArray _ _ =>
      match array_index key with
      | Some _ => false
      | None => true
      end
  | _ => true
  end.

(** [nested[key]] where [nested] is an object or an array: the property
    of its own, [undefined] where there is none and none is inherited.  An
    inherited member is [Beyond]. *)
Definition read (nested : value) (key : string) : completion value :=
  match own_value nested key with
  | Some x => Normal x
  | None => if may_inherit nested key then Beyond else Normal VUndefined
  end.

(** [eq(value, other)], which is [SameValueZero].  Two objects are the
    same when they are one object; [assignValue] compares the value in
    place with a value that comes from elsewhere (another property of the
    raw document, or a container made on the spot), never with itself. *)
Definition eq_value (v other : value) : bool :=
  match v, other with
  | VUndefined, VUndefined => true
  | VNull, VNull => true
  | VBool b, VBool c => Bool.eqb b c
  | VNum n, VNum m => num_same n m
  | VStr s, VStr t => String.eqb s t
  | _, _ => false
  end.

(** [array.length = len]: the elements from [len] on are deleted, or the
    array grows by holes *)
Definition with_length (elems : list (option value)) (len : nat)
  : list (option value) :=
  firstn len elems ++ repeat None (len - List.length elems).

(** [object[key] = value] on an object or an array, as [baseAssignValue]
    does it for a key other than [__proto__].  A member of a prototype of
    that name does not stand in the way: what the prototypes provide can be
    written over.  An array converts a value assigned to its [length] and
    throws a [RangeError] if the number is not a length. *)
Definition baseAssignValue (object : value) (key : string) (v : value)
  : completion value :=
  match object with
  | VObject props => Normal (VObject (obj_set props key v))
  | VArray elems props =>
      if String.eqb key "length" then
        n <- ToNumber v ;;
        match num_length n with
        | Some len => Normal (VArray (with_length elems len) props)
        | None => Throw RangeError
        end
      else
        match array_index key with
        | Some i => Normal (VArray (elem_set elems i v) props)
        | None => Normal (VArray elems (obj_set props key v))
        end
  | _ => Beyond
  end.

(** [assignValue]: the assignment is skipped when the object has the
    property and its value is the same. *)
Definition assignValue (object : value) (key : string) (v : value)
  : completion value :=
  match own_value object key with
  | Some objValue =>
      if eq_value objValue v then Normal object
      else baseAssignValue object key v
  | None => baseAssignValue object key v
  end.

(** The container [nested] after its child under [key] was updated in
    place: no assignment of the code, the child is the same object as
    before. *)
Definition with_child (nested : value) (key : string) (child : value)
  : value :=
  match nested with
  | VObject props => VObject (obj_set props key child)
  | VArray elems props =>
      match array_index key with
      | Some i => VArray (elem_set elems i child) props
      | None => VArray elems (obj_set props key child)
      end
  | _ => nested
  end.

(** the keys [baseSet] refuses to walk through (lodash 4.17.21) *)
Definition unsafe_key (key : string) : bool :=
  String.eqb key "__proto__" || String.eqb key "constructor"
  || String.eqb key "prototype".

(** The loop of [baseSet]: what [nested] has become when it ends.  At
    each key but the last the loop takes the object under the key, or puts
    a new container there, and goes on inside it:
    [assignValue(nested, key, newValue); nested = nested[key]]. *)
Fixpoint walk (nested : value) (path : list string) (v : value)
  : completion value :=
  match path with
  | [] => Normal nested
  | segment :: rest =>
      let key := toKey segment in
      if unsafe_key key then Normal nested
      else
        match rest with
        | [] => assignValue nested key v
        | next :: _ =>
            objValue <- read nested key ;;
            if isObject objValue then
              (* [assignValue] finds [objValue] itself in place *)
              child <- walk objValue rest v ;;
              Normal (with_child nested key child)
            else
              let newValue :=
                if isIndex next then VArray [] [] else VObject [] in
              assigned <- assignValue nested key newValue ;;
              inside <- read assigned key ;;
              (* under the [length] of an array there is a number, and
                 the walk would go on inside a primitive *)
              if isObject inside then
                child <- walk inside rest v ;;
                Normal (with_child assigned key child)
              else Beyond
        end
  end.

Definition baseSet (object : value) (path : string) (v : value)
  : completion value :=
  if negb (isObject object) then Normal object
  else walk object (castPath path object) v.

Definition set (object : value) (path : string) (v : value)
  : completion value :=
  if nullish object then Normal object else baseSet object path v.

End Lodash.
End Lodash.

(** ** Arrays *)

Section ArrayMethods.
Context {JN : JsNumber}.

Fixpoint some_loop (f : value -> completion value) (l : list value)
  : completion bool :=
  match l with
  | [] => Normal false
  | x :: r =>
      b <- f x ;;
      if ToBoolean b then Normal true else some_loop f r
  end.

Fixpoint filter_loop (f : value -> completion value) (l : list value)
  : completion (list value) :=
  match l with
  | [] => Normal []
  | x :: r =>
      b <- f x ;;
      kept <- filter_loop f r ;;
      Normal (if ToBoolean b then x :: kept else kept)
  end.

(** [receiver.method(...)] for a method of [Array.prototype]: the elements
    the method walks.  Only an array has the method, and an own property
    of that name (which in JSON data is never a function) hides it. *)
Definition array_receiver (receiver : value) (method : string)
  : completion (list (option value)) :=
  match receiver with
  | VArray elems props =>
      if has_own props method then Throw TypeError else Normal elems
  | _ => Throw TypeError
  end.

(** [arr.some(f)]: holes are skipped, the walk stops at the first hit *)
Definition Array_some (arr : value) (f : value -> completion value)
  : completion bool :=
  elems <- array_receiver arr "some" ;; some_loop f (present elems).

(** [arr.filter(f)]: holes are skipped, the result is dense *)
Definition Array_filter (arr : value) (f : value -> completion value)
  : completion (list value) :=
  elems <- array_receiver arr "filter" ;; filter_loop f (present elems).

(** [arr.map(f)]: holes stay holes *)
Definition Array_map {B : Type} (arr : value) (f : value -> completion B)
  : completion (list (option B)) :=
  elems <- array_receiver arr "map" ;;
  mapM (fun o =>
          match o with
          | Some x => y <- f x ;; Normal (Some y)
          | None => Normal None
          end) elems.

Fixpoint foldM {A S : Type} (f : S -> A -> completion S) (l : list A) (s : S)
  : completion S :=
  match l with
  | [] => Normal s
  | x :: r => s' <- f s x ;; foldM f r s'
  end.

End ArrayMethods.

(** ** [src/traces/formatTraces.ts]: one span row per document *)

Section FormatTraces.
Context {JN : JsNumber} {JE : JsEngine}.

Record TraceKeyValuePair : Type := {
  kv_key : string;
  kv_value : value;
}.

Record TraceLog : Type := {
  timestamp : number;
  fields : list TraceKeyValuePair;
}.

(** The object literal [transformTraceResponse] returns.  [stackTraces] is
    [None] when the row has no such key; when it has, the key holds what
    [getStackTraces] returned, a list or [undefined].  A hole of [logs] is
    a hole of the events array. *)
Record TraceSpanRow : Type := {
  parentSpanID : value;
  traceID : value;
  spanID : value;
  operationName : value;
  startTime : number;
  duration : number;
  serviceName : value;
  tags : list TraceKeyValuePair;
  serviceTags : list TraceKeyValuePair;
  stackTraces : option (option (list string));
  logs : list (option TraceLog);
}.

(** [event => event.attributes.error] *)
Definition event_error (event : value) : completion value :=
  attributes <- Get event "attributes" ;;
  Get attributes "error".

Definition spanHasError (spanEvents : value) : completion bool :=
  Array_some spanEvents event_error.

(** [event => `${event.name}: ${event.attributes.error}`] *)
Definition stack_trace (event : value) : completion string :=
  name <- Get event "name" ;;
  s1 <- ToString name ;;
  attributes <- Get event "attributes" ;;
  error <- Get attributes "error" ;;
  s2 <- ToString error ;;
  Normal (s1 ++ ": " ++ s2)%string.

Definition getStackTraces (events : value) : completion (option (list string)) :=
  errors <- Array_filter events event_error ;;
  stackTraces <- mapM stack_trace errors ;;
  (* if we return an empty array, Trace panel plugin shows "0" *)
  Normal (if Nat.ltb 0 (List.length stackTraces) then Some stackTraces else None).

Definition convertToKeyValue (tags : value) : completion (list TraceKeyValuePair) :=
  keys <- Object_keys tags ;;
  mapM (fun key =>
          v <- Get tags key ;;
          Normal {| kv_key := key; kv_value := v |}) keys.

Definition transformEventsIntoLogs (events : value)
  : completion (list (option TraceLog)) :=
  Array_map events (fun event =>
    time <- Get event "time" ;;
    ms <- Date_getTime time ;;
    name <- Get event "name" ;;
    Normal {| timestamp := ms;
              fields := [{| kv_key := "name"; kv_value := name |}] |}).

(** [key => { set(nestedSpan, key, spanData[key]) }] *)
Definition set_from (spanData : value) (nestedSpan : value) (key : string)
  : completion value :=
  v <- Get spanData key ;; Lodash.set nestedSpan key v.

(** The variable [nestedSpan] after the loop over [Object.keys(spanData)]:
    the document with its dot-notation keys turned into nested objects. *)
Definition nestedSpan_of (spanData : value) : completion value :=
  keys <- Object_keys spanData ;;
  foldM (set_from spanData) keys (VObject []).

(** The object literal, its properties evaluated in source order. *)
Definition span_row (nestedSpan : value) : completion TraceSpanRow :=
  events <- Get nestedSpan "events" ;;
  hasError <- (if ToBoolean events then spanHasError events else Normal false) ;;
  parentSpanId <- Get nestedSpan "parentSpanId" ;;
  traceId <- Get nestedSpan "traceId" ;;
  spanId <- Get nestedSpan "spanId" ;;
  name <- Get nestedSpan "name" ;;
  (* grafana needs time in milliseconds *)
  startTime <- Get nestedSpan "startTime" ;;
  startMs <- Date_getTime startTime ;;
  durationInNanos <- Get nestedSpan "durationInNanos" ;;
  nanos <- ToNumber durationInNanos ;;
  serviceName <- Get nestedSpan "serviceName" ;;
  span <- Get nestedSpan "span" ;;
  attributes <- GetOpt span "attributes" ;;
  spanTags <- convertToKeyValue
                (if nullish attributes then VObject [] else attributes) ;;
  resource <- Get nestedSpan "resource" ;;
  resourceAttributes <- GetOpt resource "attributes" ;;
  serviceTags <- (if ToBoolean resourceAttributes
                  then r <- Get nestedSpan "resource" ;;
                       a <- Get r "attributes" ;;
                       convertToKeyValue a
                  else Normal []) ;;
  stackTraces <- (if hasError : bool
                  then events <- Get nestedSpan "events" ;;
                       st <- getStackTraces events ;;
                       Normal (Some st)
                  else Normal None) ;;
  events <- Get nestedSpan "events" ;;
  length <- Get events "length" ;;
  logs <- (if ToBoolean length
           then events <- Get nestedSpan "events" ;;
                transformEventsIntoLogs events
           else Normal []) ;;
  Normal {| parentSpanID := parentSpanId;
            traceID := traceId;
            spanID := spanId;
            operationName := name;
            startTime := startMs;
            duration := num_mul nanos num_micro;
            serviceName := serviceName;
            tags := spanTags ++
                    (* TraceView needs a true or false value here to display
                       the error icon next to the span *)
                    [{| kv_key := "error"; kv_value := VBool hasError |}];
            serviceTags := serviceTags;
            stackTraces := stackTraces;
            logs := logs |}.

(** [span => { ... }], the callback of [spanList.map] *)
Definition transformSpan (span : value) : completion TraceSpanRow :=
  spanData <- Get span "_source" ;;
  nestedSpan <- nestedSpan_of spanData ;;
  span_row nestedSpan.

Definition transformTraceResponse (spanList : list value)
  : completion (list TraceSpanRow) :=
  mapM transformSpan spanList.

End FormatTraces.

(** ** [src/traces/formatTraces.ts]: the list of traces *)

Section TraceList.
Context {JN : JsNumber}.

(** [type TraceGroupBucket = { key: string }] *)
Record TraceGroupBucket : Type := {
  group_key : string;
}.

(** [type TraceBucket]; a field of a nested object type is named by its
    path: [latency_value] is [latency.value]. *)
Record TraceBucket : Type := {
  bucket_key : string;
  trace_group_buckets : list TraceGroupBucket;
  latency_value : number;
  error_count_doc_count : number;
  last_updated_value : string;
}.

(** [type TraceListResponse] *)
Record TraceListResponse : Type := {
  aggregations_traces_buckets : list TraceBucket;
}.

Inductive FieldType : Type :=
| FieldType_string
| FieldType_number
| FieldType_time.

(** the member of the [LuceneQueryType] enum the link carries *)
Inductive LuceneQueryType : Type :=
| LuceneQueryType_Traces.

Record LinkQuery : Type := {
  lq_query : string;
  luceneQueryType : LuceneQueryType;
}.

Record InternalLink : Type := {
  datasourceUid : string;
  datasourceName : string;
  internal_query : LinkQuery;
}.

Record DataLink : Type := {
  title : string;
  url : string;
  internal : InternalLink;
}.

Record Field : Type := {
  name : string;
  type : FieldType;
  values : list value;
  config_links : list DataLink;
}.

(** [DataFrameDTO]; [new MutableDataFrame(dto)] is taken to hold the fields
    it was given. *)
Record DataFrameDTO : Type := {
  meta_preferredVisualisationType : option string;
  frame_fields : list Field;
}.

Record DataQueryResponse : Type := {
  data : list DataFrameDTO;
  key : value;
}.

(** the five arrays the loop pushes to *)
Record Columns : Type := {
  traceIds : list value;
  traceGroups : list value;
  latency : list value;
  errors : list value;
  lastUpdated : list value;
}.

Definition no_columns : Columns :=
  {| traceIds := []; traceGroups := []; latency := []; errors := [];
     lastUpdated := [] |}.

(** [list[0].p] on a typed array: [undefined.p] throws *)
Definition first {A : Type} (l : list A) : completion A :=
  match l with
  | x :: _ => Normal x
  | [] => Throw TypeError
  end.

(** the body of the [forEach] callback *)
Definition push_bucket (c : Columns) (bucket : TraceBucket) : completion Columns :=
  let ids := traceIds c ++ [VStr (bucket_key bucket)] in
  group <- first (trace_group_buckets bucket) ;;
  Normal {| traceIds := ids;
            traceGroups := traceGroups c ++ [VStr (group_key group)];
            latency := latency c ++ [VNum (latency_value bucket)];
            errors := errors c ++ [VNum (error_count_doc_count bucket)];
            lastUpdated := lastUpdated c ++ [VStr (last_updated_value bucket)] |}.

(** [response[0].aggregations.traces.buckets.forEach(...)] *)
Definition collect (response : list TraceListResponse) : completion Columns :=
  r <- first response ;;
  foldM push_bucket (aggregations_traces_buckets r) no_columns.

Definition plain_field (n : string) (t : FieldType) (vs : list value) : Field :=
  {| name := n; type := t; values := vs; config_links := [] |}.

(** [targets[0].refId] *)
Definition refId_of (targets : list value) : completion value :=
  Get (nth 0 targets VUndefined) "refId".

Definition createListTracesDataFrame
    (targets : list value) (response : list TraceListResponse)
    (uid : string) (name : string) : completion DataQueryResponse :=
  c <- collect response ;;
  let traceFields :=
    {| meta_preferredVisualisationType := Some "table";
       frame_fields :=
         [ {| name := "Trace Id";
              type := FieldType_string;
              values := traceIds c;
              config_links :=
                [ {| title := "Trace: ${__value.raw}";
                     url := "";
                     internal :=
                       {| datasourceUid := uid;
                          datasourceName := name;
                          internal_query :=
                            {| lq_query := "traceId: ${__value.raw}";
                               luceneQueryType := LuceneQueryType_Traces |} |}
                  |} ] |};
           plain_field "Trace Group" FieldType_string (traceGroups c);
           plain_field "Latency (ms)" FieldType_number (latency c);
           plain_field "Error Count" FieldType_number (errors c);
           plain_field "Last Updated" FieldType_time (lastUpdated c) ] |} in
  refId <- refId_of targets ;;
  Normal {| data := [traceFields]; key := refId |}.

(** The earlier draft, in [src/Traces.ts]: the same loop, no link and no
    [meta]. *)
Definition createTracesDataFrame
    (targets : list value) (response : list TraceListResponse)
  : completion DataQueryResponse :=
  c <- collect response ;;
  let traceFields :=
    {| meta_preferredVisualisationType := None;
       frame_fields :=
         [ plain_field "Trace Id" FieldType_string (traceIds c);
           plain_field "Trace Group" FieldType_string (traceGroups c);
           plain_field "Latency (ms)" FieldType_number (latency c);
           plain_field "Error Count" FieldType_number (errors c);
           plain_field "Last Updated" FieldType_time (lastUpdated c) ] |} in
  refId <- refId_of targets ;;
  Normal {| data := [traceFields]; key := refId |}.

(** The rows of a frame: row [i] holds value [i] of every field. *)
Definition frame_rows (frame : DataFrameDTO) : list (list value) :=
  match frame_fields frame with
  | [] => []
  | f :: _ =>
      map (fun i => map (fun g => nth i (values g) VUndefined)
                        (frame_fields frame))
          (seq 0 (List.length (values f)))
  end.

End TraceList.

(** ** [src/Traces.ts]: the two queries *)

Section Queries.
Context {JN : JsNumber}.

(** [{...v}]: the own enumerable properties a spread copies *)
Fixpoint indexed (elems : list (option value)) (i : N) : list (string * value) :=
  match elems with
  | [] => []
  | Some x :: r => (N_to_string i, x) :: indexed r (N.succ i)
  | None :: r => indexed r (N.succ i)
  end.

Definition spread (v : value) : list (string * value) :=
  match v with
  | VObject props => props
  | VArray elems props => indexed elems 0 ++ props
  | VStr s =>
      map (fun i => (N_to_string (N.of_nat i),
                     match String.get i s with
                     | Some c => VStr (String c EmptyString)
                     | None => VUndefined
                     end))
          (seq 0 (String.length s))
  | _ => []
  end.

(** An object literal: its properties are defined from left to right, a
    repeated name keeps its first place and takes the last value. *)
Definition object_literal (entries : list (string * value)) : value :=
  VObject (fold_left (fun props e => obj_set props (fst e) (snd e)) entries []).

Definition array_literal (l : list value) : value :=
  VArray (map Some l) [].

Definition num (z : Z) : value := VNum (num_of_Z z).

Definition newline : string := String "010" EmptyString.

(** the Painless script of the [latency] aggregation *)
Definition latency_script : string :=
  (newline ++
   "                if (doc.containsKey('traceGroupFields.durationInNanos') && !doc['traceGroupFields.durationInNanos'].empty) {" ++ newline ++
   "                  return Math.round(doc['traceGroupFields.durationInNanos'].value / 10000) / 100.0" ++ newline ++
   "                }" ++ newline ++
   "                return 0" ++ newline ++
   "                ")%string.

(** [{ range: { startTime: { gte: '$timeFrom', lte: '$timeTo' } } }] *)
Definition startTime_range : value :=
  object_literal
    [("range", object_literal
       [("startTime", object_literal
          [("gte", VStr "$timeFrom"); ("lte", VStr "$timeTo")])])].

(** the object literal [createDefaultTraceQuery] gives [luceneQueryObj] *)
Definition trace_list_body : value :=
  object_literal
    [("size", num 10);
     ("query", object_literal
       [("bool", object_literal
          [("must", array_literal [startTime_range]);
           ("filter", array_literal []);
           ("should", array_literal []);
           ("must_not", array_literal [])])]);
     ("aggs", object_literal
       (* create a set of buckets that we call traces *)
       [("traces", object_literal
          (* each of those buckets in traces is sorted by a key of their
             traceId *)
          [("terms", object_literal
             [("field", VStr "traceId");
              ("size", num 100);
              ("order", object_literal [("_key", VStr "asc")])]);
           (* within each of those buckets we create further aggregations *)
           ("aggs", object_literal
             [("latency", object_literal
                [("max", object_literal
                   [("script", object_literal
                      [("source", VStr latency_script);
                       ("lang", VStr "painless")])])]);
              ("trace_group", object_literal
                [("terms", object_literal
                   [("field", VStr "traceGroup"); ("size", num 1)])]);
              ("error_count", object_literal
                [("filter", object_literal
                   [("term", object_literal
                      [("traceGroupFields.statusCode", VStr "2")])])]);
              ("last_updated", object_literal
                [("max", object_literal
                   [("field", VStr "traceGroupFields.endTime")])])])])])].

Definition createDefaultTraceQuery (query : value) : value :=
  object_literal
    (spread query ++
     [("luceneQueryMode", VStr "traces");
      ("luceneQueryObj", trace_list_body)]).

(** The [bool] query of the two single-trace drafts, for the trace id the
    draft names. *)
Definition one_trace_body (traceId : string) : value :=
  object_literal
    [("size", num 1000);
     ("query", object_literal
       [("bool", object_literal
          [("must", array_literal
             [startTime_range;
              object_literal
                [("term", object_literal [("traceId", VStr traceId)])]]);
           ("filter", array_literal []);
           ("should", array_literal []);
           ("must_not", array_literal [])])])].

(** [src/Traces.ts]:
    temporary function to request one particular trace while we work on
    visualizing traces *)
Definition createOneTrace (query : value) : value :=
  object_literal
    (spread query ++
     [("luceneQueryMode", VStr "traces");
      (* Manually Update me! (for now) *)
      ("luceneQueryObj", one_trace_body "00000000000000000038b5dfd2017015")]).

(** the later draft of the same function *)
Definition createSingleTraceQuery (query : value) : value :=
  object_literal
    (spread query ++
     [("isSingleTrace", VBool true);
      ("luceneQueryMode", VStr "traces");
      (* Manually Update me! (for now) *)
      ("luceneQueryObj", one_trace_body "0000000000000000061141afde96cda8")]).

(** [v.p1.p2...] on own properties and array elements; [None] where a step
    meets no property. *)
Fixpoint at_path (v : value) (path : list string) : option value :=
  match path with
  | [] => Some v
  | k :: rest =>
      match v with
      | VObject props =>
          match own_get props k with
          | Some x => at_path x rest
          | None => None
          end
      | VArray elems props =>
          match array_index k with
          | Some i =>
              match elem_get elems i with
              | Some x => at_path x rest
              | None => None
              end
          | None =>
              match own_get props k with
              | Some x => at_path x rest
              | None => None
              end
          end
      | _ => None
      end
  end.

(** [sub] occurs in [s] *)
Fixpoint contains (sub s : string) : bool :=
  String.prefix sub s
  || match s with
     | EmptyString => false
     | String _ r => contains sub r
     end.

End Queries.

(** ** [src/components/QueryEditor/Traces.ts] *)

Module QueryEditor.
Section QueryEditor.
Context {JN : JsNumber}.

Definition createDefaultTraceQuery (query : value) : value :=
  object_literal
    (spread query ++
     (* TODO this name is bad *)
     [("newQueryType", VStr "traces");
      ("newQueryObj", object_literal [])]).

End QueryEditor.
End QueryEditor.

(** ** Vocabulary of the statements *)

(** An evaluation settles when it returns or throws a [TypeError]: what
    the code outside of [set] does at every step. *)
Definition settles {A : Type} (c : completion A) : Prop :=
  (exists a, c = Normal a) \/ c = Throw TypeError.

Section Vocabulary.
Context {JN : JsNumber}.

(** what a callback says of an element, [false] when the callback throws *)
Definition holds (f : value -> completion value) (x : value) : bool :=
  match f x with
  | Normal v => ToBoolean v
  | _ => false
  end.

Definition returns (f : value -> completion value) (x : value) : Prop :=
  exists v, f x = Normal v.

(** the event has a truthy [attributes.error] *)
Definition has_error : value -> bool := holds event_error.

(** [event.attributes.error] as the data has it: the property [error] of
    the property [attributes]; [None] where there is no such property *)
Definition error_of (event : value) : option value :=
  at_path event ["attributes"; "error"].

(** the event has a truthy [attributes.error] *)
Definition error_event (event : value) : bool :=
  match error_of event with
  | Some error => ToBoolean error
  | None => false
  end.

(** the event has attributes: a property [attributes] that is neither
    [null] nor [undefined] *)
Definition with_attributes (event : value) : Prop :=
  exists attributes,
    at_path event ["attributes"] = Some attributes
    /\ nullish attributes = false.

(** [event.name] as the data has it *)
Definition name_of (event : value) : value :=
  match at_path event ["name"] with
  | Some name => name
  | None => VUndefined
  end.

(** [line] is the name of the event, a colon, a space, and the event's
    [attributes.error], both as the language prints them *)
Definition trace_line (event : value) (line : string) : Prop :=
  exists error name_text error_text,
    error_of event = Some error
    /\ ToString (name_of event) = Normal name_text
    /\ ToString error = Normal error_text
    /\ line = (name_text ++ ": " ++ error_text)%string.

(** a name the engine enumerates before the others: the decimal form of a
    natural number *)
Definition integer_name (k : string) : bool :=
  match uint_of_key k with
  | Some _ => true
  | None => false
  end.

(** the lines of a text *)
Fixpoint lines_from (s : string) (line : string) : list string :=
  match s with
  | EmptyString => [line]
  | String c r =>
      if Ascii.eqb c "010" then line :: lines_from r ""
      else lines_from r (line ++ String c "")
  end.

Definition lines (s : string) : list string := lines_from s "".

(** a line without the spaces it begins with *)
Fixpoint unindent (s : string) : string :=
  match s with
  | String " " r => unindent r
  | _ => s
  end.

(** the events of a normalized span: the elements of its [events] array *)
Definition events_of (nestedSpan : value) : list value :=
  match Get nestedSpan "events" with
  | Normal (VArray elems _) => present elems
  | _ => []
  end.

(** a property name with none of the characters of lodash's path syntax *)
Fixpoint plain_segment (s : string) : bool :=
  match s with
  | EmptyString => true
  | String c r => negb (Lodash.is_delimiter c) && plain_segment r
  end.

Fixpoint has_dot (s : string) : bool :=
  match s with
  | EmptyString => false
  | String c r => Ascii.eqb c "." || has_dot r
  end.

(** the summary row of a bucket whose first trace group is [g]:
    traceId, traceGroup, latencyMs, errorCount, lastUpdated *)
Definition summary_row (b : TraceBucket) (g : TraceGroupBucket) : list value :=
  [VStr (bucket_key b); VStr (group_key g); VNum (latency_value b);
   VNum (error_count_doc_count b); VStr (last_updated_value b)].

Definition summary_of (b : TraceBucket) (row : list value) : Prop :=
  exists g gs, trace_group_buckets b = g :: gs /\ row = summary_row b g.

Definition first_group (b : TraceBucket) : TraceGroupBucket :=
  hd {| group_key := "" |} (trace_group_buckets b).

Definition columns_of (bs : list TraceBucket) : Columns :=
  {| traceIds := map (fun b => VStr (bucket_key b)) bs;
     traceGroups := map (fun b => VStr (group_key (first_group b))) bs;
     latency := map (fun b => VNum (latency_value b)) bs;
     errors := map (fun b => VNum (error_count_doc_count b)) bs;
     lastUpdated := map (fun b => VStr (last_updated_value b)) bs |}.

(** the property is absent or holds a primitive *)
Definition primitive_at (props : list (string * value)) (k : string) : Prop :=
  forall v, own_get props k = Some v -> Lodash.isObject v = false.

(** an event as [OpenSearchSpanEvent] types it: an object with a name, a
    time and an [attributes] object, whose [error], if any, is a
    primitive *)
Definition typed_event (e : value) : Prop :=
  exists props attributes,
    e = VObject props
    /\ own_get props "attributes" = Some (VObject attributes)
    /\ primitive_at props "name" /\ primitive_at props "time"
    /\ primitive_at attributes "error".

(** a normalized span as [OpenSearchSpan] types it, as far as the row
    depends on it: an [events] array of typed events, and a start time and
    a duration that, if present, are primitives *)
Definition typed_span (props : list (string * value)) : Prop :=
  exists elems,
    own_get props "events" = Some (VArray elems [])
    /\ Forall typed_event (present elems)
    /\ primitive_at props "startTime"
    /\ primitive_at props "durationInNanos".

(** the engine's conversions do not throw on primitives *)
Definition total_on_primitives (f : value -> completion number) : Prop :=
  forall v, Lodash.isObject v = false -> exists n, f v = Normal n.

(** the query asks for the spans of trace [traceId] *)
Definition asks_for (q : value) (traceId : string) : Prop :=
  at_path q ["luceneQueryObj"; "query"; "bool"; "must"; "1"; "term"; "traceId"]
  = Some (VStr traceId).

End Vocabulary.

(** ** Vocabulary of the further statements *)

Section MoreVocabulary.
Context {JN : JsNumber} {JE : JsEngine}.

(** the property [k] of a document, [undefined] where it has none *)
Definition field (props : list (string * value)) (k : string) : value :=
  match own_get props k with
  | Some x => x
  | None => VUndefined
  end.

(** the row has the identifiers of the document, under the names the
    trace view gives them, its start time in milliseconds, and its
    duration, which the document has in nanoseconds, in milliseconds *)
Definition row_of_document (props : list (string * value))
    (row : TraceSpanRow) : Prop :=
  parentSpanID row = field props "parentSpanId"
  /\ traceID row = field props "traceId"
  /\ spanID row = field props "spanId"
  /\ operationName row = field props "name"
  /\ serviceName row = field props "serviceName"
  /\ Date_getTime (field props "startTime") = Normal (startTime row)
  /\ exists nanos,
       ToNumber (field props "durationInNanos") = Normal nanos
       /\ duration row = num_mul nanos num_micro.

(** the keys of a document that is flat already: distinct, none of them a
    lodash path or one of the keys [baseSet] refuses *)
Definition flat_keys (props : list (string * value)) : Prop :=
  NoDup (map fst props)
  /\ Forall (fun k => Lodash.reIsDeepProp k = false
                      /\ Lodash.unsafe_key k = false) (map fst props).

(** [{ key: 'error', value: hasError }] *)
Definition error_tag (hasError : bool) : TraceKeyValuePair :=
  {| kv_key := "error"; kv_value := VBool hasError |}.

(** [{ key, value: tags[key] }] for a property *)
Definition pair_of (p : string * value) : TraceKeyValuePair :=
  {| kv_key := fst p; kv_value := snd p |}.

(** the log entry [transformEventsIntoLogs] makes of an event: a hole of
    the array stays a hole *)
Definition log_of (slot : option value) (log : option TraceLog) : Prop :=
  match slot with
  | None => log = None
  | Some event =>
      exists time ms name,
        Get event "time" = Normal time /\ Date_getTime time = Normal ms
        /\ Get event "name" = Normal name
        /\ log = Some {| timestamp := ms;
                         fields := [{| kv_key := "name"; kv_value := name |}] |}
  end.


(** [segments.join('.')] *)
Fixpoint join_dots (segments : list string) : string :=
  match segments with
  | [] => EmptyString
  | [a] => a
  | a :: rest => (a ++ String "." (join_dots rest))%string
  end.

(** a segment [baseSet] walks through as it is written *)
Definition safe_segment (s : string) : bool :=
  plain_segment s && negb (Lodash.unsafe_key s).

(** a segment under which [baseSet] puts a container of its own when the
    object has no such property: no object inherits a member of that
    name *)
Definition fresh_segment (s : string) : bool :=
  safe_segment s && negb (Lodash.inherited s).

(** [{p1: {p2: ... x}}] *)
Fixpoint nest (prefix : list string) (x : value) : value :=
  match prefix with
  | [] => x
  | p :: ps => VObject [(p, nest ps x)]
  end.

(** a document whose keys are the names of [attrs] under one dotted
    prefix *)
Definition grouped_document (prefix : list string)
    (attrs : list (string * value)) : value :=
  VObject (map (fun kv => (join_dots (prefix ++ [fst kv]), snd kv)) attrs).


(** the key of an attribute of the group *)
Definition group_key_of (prefix : list string) (kv : string * value) : string :=
  join_dots (prefix ++ [fst kv]).




End MoreVocabulary.

(** ** A stand-in engine, to run the definitions on examples

    Every statement below holds for every [JsNumber] and [JsEngine].  To
    evaluate the definitions on concrete documents the numbers are stood
    for by the rationals, with [None] for [NaN]; products are exact, an
    integer prints in decimal and another number as a fraction.  This
    engine hardly parses: [ToNumber] reads a string of decimal digits, and
    takes the empty string and the empty array for [0]; for every other
    string and object it answers [NaN], and so does [new Date] for all of
    them, which is the engine's answer for the unparseable ones. *)

Module Example.

Definition print (n : option Q) : string :=
  match n with
  | None => "NaN"
  | Some q =>
      let r := Qred q in
      if Pos.eqb (Qden r) 1 then NilZero.string_of_int (Z.to_int (Qnum r))
      else (NilZero.string_of_int (Z.to_int (Qnum r)) ++ "/"
            ++ NilZero.string_of_uint (Pos.to_uint (Qden r)))%string
  end.

Definition times (a b : option Q) : option Q :=
  match a, b with
  | Some x, Some y => Some (Qred (x * y))
  | _, _ => None
  end.

Definition truthy (n : option Q) : bool :=
  match n with
  | Some q => negb (Z.eqb (Qnum q) 0)
  | None => false
  end.

(** the same fraction, numerator and denominator; there is one zero *)
Definition same (a b : option Q) : bool :=
  match a, b with
  | Some x, Some y => Z.eqb (Qnum x) (Qnum y) && Pos.eqb (Qden x) (Qden y)
  | None, None => true
  | _, _ => false
  end.

Definition as_length (n : option Q) : option nat :=
  match n with
  | Some q =>
      if Pos.eqb (Qden q) 1 && Z.leb 0 (Qnum q)
         && negb (Z.ltb 4294967295 (Qnum q))
      then Some (Z.to_nat (Qnum q)) else None
  | None => None
  end.

#[export] Instance numbers : JsNumber := {|
  number := option Q;
  num_of_Z := fun z => Some (inject_Z z);
  num_truthy := truthy;
  num_truthy_of_Z := fun z => eq_refl;
  Number_toString := print;
  num_mul := times;
  num_micro := Some (1 # 1000000)%Q;
  num_same := same;
  num_same_sound := fun a b =>
    match a, b return same a b = true -> a = b \/ _ with
    | Some (Qmake x p), Some (Qmake y q) => fun H =>
        or_introl
          (match andb_prop _ _ H with
           | conj Hn Hd =>
               f_equal2 (fun n d => Some (Qmake n d))
                        (proj1 (Z.eqb_eq x y) Hn) (proj1 (Pos.eqb_eq p q) Hd)
           end)
    | None, None => fun _ => or_introl eq_refl
    | Some _, None => fun H => False_ind _ (Bool.diff_false_true H)
    | None, Some _ => fun H => False_ind _ (Bool.diff_false_true H)
    end;
  num_length := as_length;
|}.

Definition to_number (v : value) : option number :=
  Some match v with
       | VNum n => n
       | VNull | VBool false | VStr "" | VArray [] [] => Some (inject_Z 0)
       | VBool true => Some (inject_Z 1)
       | VStr s =>
           match NilEmpty.uint_of_string s with
           | Some d => Some (inject_Z (Z.of_N (N.of_uint d)))
           | None => None
           end
       | _ => None
       end.

(** [TimeClip]: a time value is an integer of at most 8.64e15 *)
Definition time_clip (n : option Q) : option Q :=
  match n with
  | Some q =>
      let t := Z.quot (Qnum q) (Zpos (Qden q)) in
      if Z.leb (Z.abs t) 8640000000000000 then Some (inject_Z t) else None
  | None => None
  end.

Definition get_time (v : value) : option number :=
  Some match v with
       | VNum n => time_clip n
       | VNull | VBool false => Some (inject_Z 0)
       | VBool true => Some (inject_Z 1)
       | _ => None
       end.

#[export] Instance engine : JsEngine := {|
  number_of := to_number;
  time_of := get_time;
|}.

(** *** Documents *)

Definition exception_event : value :=
  VObject [("name", VStr "exception"); ("time", VStr "...");
           ("attributes", VObject [("error", VStr "boom")])].

Definition source_with_error : value :=
  VObject [("traceId", VStr "t"); ("spanId", VStr "s");
           ("durationInNanos", num 1000000);
           ("span.attributes.http@status_code", num 200);
           ("events", array_literal [exception_event])].

Definition span_with_error : value :=
  VObject [("_source", source_with_error)].

(** [source_with_error], normalized *)
Definition normalized_with_error : list (string * value) :=
  [("traceId", VStr "t"); ("spanId", VStr "s");
   ("durationInNanos", num 1000000);
   ("span", VObject [("attributes",
                      VObject [("http@status_code", num 200)])]);
   ("events", array_literal [exception_event])].

Definition row_with_error : TraceSpanRow :=
  {| parentSpanID := VUndefined;
     traceID := VStr "t";
     spanID := VStr "s";
     operationName := VUndefined;
     startTime := None;
     duration := Some (inject_Z 1);
     serviceName := VUndefined;
     tags := [{| kv_key := "http@status_code"; kv_value := num 200 |};
              {| kv_key := "error"; kv_value := VBool true |}];
     serviceTags := [];
     stackTraces := Some (Some ["exception: boom"]);
     logs := [Some {| timestamp := None;
                      fields := [{| kv_key := "name";
                                    kv_value := VStr "exception" |}] |}] |}.

Definition source_without_events : list (string * value) :=
  [("traceId", VStr "t"); ("spanId", VStr "s")].

Definition span_without_events : value :=
  VObject [("_source", VObject source_without_events)].

(** one key sets [a], another one [a.b] *)
Definition conflicting_document : value :=
  VObject [("a", num 1); ("a.b", num 2)].

(** no dot, but a bracket of lodash's path syntax *)
Definition bracket_document : value :=
  VObject [("a[0]", num 1)].

Definition flat_document : list (string * value) :=
  [("traceId", VStr "t"); ("http@status_code", num 200)].

Definition checkout_bucket : TraceBucket :=
  {| bucket_key := "abc";
     trace_group_buckets := [{| group_key := "checkout" |}];
     latency_value := Some (85 # 2)%Q;
     error_count_doc_count := Some (inject_Z 2);
     last_updated_value := "2024-01-01T00:00:00Z" |}.

Definition ungrouped_bucket : TraceBucket :=
  {| bucket_key := "def";
     trace_group_buckets := [];
     latency_value := Some (inject_Z 1);
     error_count_doc_count := Some (inject_Z 0);
     last_updated_value := "2024-01-01T00:00:00Z" |}.

Definition target : value :=
  VObject [("refId", VStr "A"); ("query", VStr "traceId: abc")].

End Example.

(** *** More documents *)

Module MoreExamples.
Import Example.

(** a document without dot-notation keys, as the response has it *)
Definition frontend_source : list (string * value) :=
  [("traceId", VStr "t"); ("spanId", VStr "s"); ("parentSpanId", VStr "");
   ("name", VStr "GET /"); ("serviceName", VStr "frontend");
   ("startTime", num 1700000000000); ("durationInNanos", num 2000000);
   ("events", array_literal [])].

Definition frontend_span : value :=
  VObject [("_index", VStr "otel-v1-apm-span-000001");
           ("_source", VObject frontend_source)].

Definition frontend_row : TraceSpanRow :=
  {| parentSpanID := VStr "";
     traceID := VStr "t";
     spanID := VStr "s";
     operationName := VStr "GET /";
     startTime := Some (inject_Z 1700000000000);
     duration := Some (inject_Z 2);
     serviceName := VStr "frontend";
     tags := [{| kv_key := "error"; kv_value := VBool false |}];
     serviceTags := [];
     stackTraces := None;
     logs := [] |}.

(** a normalized span with an empty [events] array and nothing else the
    row reads *)
Definition bare_span : value :=
  VObject [("traceId", VStr "t"); ("events", array_literal [])].

Definition bare_row : TraceSpanRow :=
  {| parentSpanID := VUndefined;
     traceID := VStr "t";
     spanID := VUndefined;
     operationName := VUndefined;
     startTime := None;
     duration := None;
     serviceName := VUndefined;
     tags := [{| kv_key := "error"; kv_value := VBool false |}];
     serviceTags := [];
     stackTraces := None;
     logs := [] |}.

Definition http_attributes : list (string * value) :=
  [("http@status_code", num 200); ("component", VStr "net/http")].

Definition exception_log : TraceLog :=
  {| timestamp := None;
     fields := [{| kv_key := "name"; kv_value := VStr "exception" |}] |}.

(** an event whose attributes have no [error] *)
Definition quiet_event : value :=
  VObject [("name", VStr "request"); ("time", VStr "...");
           ("attributes", VObject [("http@status_code", num 200)])].

(** an event whose [attributes] are missing *)
Definition broken_event : value :=
  VObject [("name", VStr "broken")].

(** a document with a key lodash refuses *)
Definition constructor_document : value :=
  VObject [("constructor", num 1); ("traceId", VStr "t")].

Definition checkout_response : TraceListResponse :=
  {| aggregations_traces_buckets := [checkout_bucket] |}.

End MoreExamples.

(** * Properties *)

(** ** Completions *)

Lemma bind_normal {A B : Type} (c : completion A) (k : A -> completion B) (b : B) :
  bind c k = Normal b -> exists a, c = Normal a /\ k a = Normal b.
Proof.
  destruct c as [a | e |]; simpl; intros H.
  - exists a. split; [reflexivity | exact H].
  - discriminate H.
  - discriminate H.
Qed.

Lemma settles_Normal {A : Type} (a : A) : settles (Normal a).
Proof. left. exists a. reflexivity. Qed.

Lemma settles_Throw {A : Type} : settles (@Throw A TypeError).
Proof. right. reflexivity. Qed.

Lemma settles_bind {A B : Type} (c : completion A) (k : A -> completion B) :
  settles c -> (forall a, settles (k a)) -> settles (bind c k).
Proof.
  intros [[a ->] | ->] Hk; [apply Hk | right; reflexivity].
Qed.

Lemma settles_mapM {A B : Type} (f : A -> completion B) l :
  (forall x, settles (f x)) -> settles (mapM f l).
Proof.
  intros Hf. induction l as [| x r IH]; simpl.
  - apply settles_Normal.
  - apply settles_bind; [apply Hf |]. intros y.
    apply settles_bind; [exact IH |]. intros ys. apply settles_Normal.
Qed.

Lemma settles_if {A : Type} (b : bool) (c d : completion A) :
  settles c -> settles d -> settles (if b then c else d).
Proof. destruct b; auto. Qed.

Create HintDb settles.
#[export] Hint Resolve settles_Normal settles_Throw settles_if : settles.

(** splits a hypothesis [x <- c ;; k = Normal b] into its two steps *)
Tactic Notation "bind_inv" hyp(H) "as" ident(a) ident(Ha) :=
  apply bind_normal in H; destruct H as (a & Ha & H).

Section ArrayFacts.
Context {JN : JsNumber}.

Lemma some_loop_total f l :
  Forall (returns f) l -> some_loop f l = Normal (existsb (holds f) l).
Proof.
  induction 1 as [| x r [v Hv] _ IH]; simpl; [reflexivity |].
  unfold holds at 1. rewrite Hv. simpl.
  destruct (ToBoolean v); [reflexivity | exact IH].
Qed.

Lemma some_loop_sound f l b :
  some_loop f l = Normal b -> b = existsb (holds f) l.
Proof.
  revert b. induction l as [| x r IH]; simpl; intros b H.
  - congruence.
  - bind_inv H as v Hv. unfold holds at 1. rewrite Hv.
    destruct (ToBoolean v); simpl; [congruence | apply IH; exact H].
Qed.

Lemma filter_loop_sound f l kept :
  filter_loop f l = Normal kept ->
  kept = filter (holds f) l /\ Forall (returns f) l.
Proof.
  revert kept. induction l as [| x r IH]; simpl; intros kept H.
  - split; [congruence | constructor].
  - bind_inv H as v Hv. bind_inv H as kept' Hkept.
    destruct (IH _ Hkept) as [-> Hall].
    unfold holds at 1. rewrite Hv. split.
    + destruct (ToBoolean v); congruence.
    + constructor; [exists v; exact Hv | exact Hall].
Qed.

Lemma mapM_length {A B : Type} (f : A -> completion B) l l' :
  mapM f l = Normal l' -> List.length l' = List.length l.
Proof.
  revert l'. induction l as [| x r IH]; simpl; intros l' H.
  - injection H as <-. reflexivity.
  - bind_inv H as y Hy. bind_inv H as ys Hys. injection H as <-.
    simpl. f_equal. eauto.
Qed.

Lemma existsb_filter_nonempty {A : Type} (p : A -> bool) l :
  existsb p l = true -> filter p l <> [].
Proof.
  induction l as [| x r IH]; simpl; [discriminate |].
  destruct (p x); simpl; [discriminate | exact IH].
Qed.

Lemma Get_normal v k : nullish v = false -> exists x, Get v k = Normal x.
Proof.
  destruct v; simpl; try discriminate; intros _;
    repeat match goal with
           | |- context [match ?x with _ => _ end] => destruct x
           | |- context [if ?x then _ else _] => destruct x
           end; eauto.
Qed.

Lemma mapM_total {A B : Type} (f : A -> completion B) l :
  Forall (fun x => exists y, f x = Normal y) l ->
  exists l', mapM f l = Normal l'.
Proof.
  induction 1 as [| x r [y Hy] _ [ys IH]]; simpl; eauto.
  rewrite Hy, IH. simpl. eauto.
Qed.

Lemma filter_loop_total f l :
  Forall (returns f) l -> filter_loop f l = Normal (filter (holds f) l).
Proof.
  induction 1 as [| x r [v Hv] _ IH]; simpl; [reflexivity |].
  unfold holds at 1. rewrite Hv, IH. simpl.
  destruct (ToBoolean v); reflexivity.
Qed.

Lemma mapM_Forall2 {A B : Type} (f : A -> completion B) l l' :
  mapM f l = Normal l' <-> Forall2 (fun x y => f x = Normal y) l l'.
Proof.
  revert l'. induction l as [| x r IH]; intros l'; simpl.
  - split.
    + intros H. injection H as <-. constructor.
    + intros H. inversion H. reflexivity.
  - split.
    + intros H. bind_inv H as y Hy. bind_inv H as ys Hys.
      injection H as <-. constructor; [exact Hy | apply IH; exact Hys].
    + intros H. inversion H as [| ? y ? ys Hy Hys]; subst.
      rewrite Hy. apply IH in Hys. rewrite Hys. reflexivity.
Qed.

Lemma Forall2_impl_Forall {A B : Type} (P : A -> Prop) (R R' : A -> B -> Prop)
    l l' :
  (forall x y, P x -> R x y -> R' x y) ->
  Forall P l -> Forall2 R l l' -> Forall2 R' l l'.
Proof.
  intros Himpl HP H. induction H as [| x y r r' Hxy _ IH]; constructor.
  - apply Himpl; [| exact Hxy]. inversion HP; assumption.
  - apply IH. inversion HP; assumption.
Qed.

Lemma existsb_pointwise {A : Type} (p q : A -> bool) l :
  (forall x, p x = q x) -> existsb p l = existsb q l.
Proof.
  intros H. induction l as [| x r IH]; simpl; [reflexivity |].
  rewrite H, IH. reflexivity.
Qed.

Lemma filter_pointwise {A : Type} (p q : A -> bool) l :
  (forall x, p x = q x) -> filter p l = filter q l.
Proof.
  intros H. induction l as [| x r IH]; simpl; [reflexivity |].
  rewrite H, IH. reflexivity.
Qed.

Lemma array_receiver_normal arr m elems :
  array_receiver arr m = Normal elems ->
  exists props, arr = VArray elems props /\ has_own props m = false.
Proof.
  destruct arr; simpl; try discriminate.
  destruct (has_own props m) eqn:E; [discriminate |].
  intros H. injection H as <-. eauto.
Qed.

End ArrayFacts.

Section SpanRows.
Context {JN : JsNumber} {JE : JsEngine}.

(** *** What the callbacks read, in terms of the data *)

Lemma at_path_step v k rest :
  at_path v (k :: rest)
  = match at_path v [k] with
    | Some x => at_path x rest
    | None => None
    end.
Proof.
  destruct v; simpl; try reflexivity.
  - destruct (own_get props k); reflexivity.
  - destruct (array_index k) as [i |].
    + destruct (elem_get elems i); reflexivity.
    + destruct (own_get props k); reflexivity.
Qed.

(** a read by a name that is neither an index nor [length] gives what the
    data has under the name *)
Lemma Get_named v k :
  String.eqb k "length" = false -> array_index k = None ->
  nullish v = false ->
  Get v k = Normal (match at_path v [k] with
                    | Some x => x
                    | None => VUndefined
                    end).
Proof.
  intros Hl Hi Hn. destruct v; simpl in *; try discriminate; try reflexivity.
  - rewrite Hl, Hi. reflexivity.
  - destruct (own_get props k); reflexivity.
  - rewrite Hl, Hi. destruct (own_get props k); reflexivity.
Qed.

Lemma at_path_container v k x :
  at_path v [k] = Some x -> nullish v = false.
Proof. destruct v; simpl; intros H; try discriminate H; reflexivity. Qed.

Lemma event_error_data e :
  with_attributes e ->
  event_error e = Normal (match error_of e with
                          | Some error => error
                          | None => VUndefined
                          end).
Proof.
  intros (a & Ha & Hn). unfold event_error, error_of.
  rewrite (Get_named e "attributes");
    [| reflexivity | reflexivity | exact (at_path_container _ _ _ Ha)].
  rewrite Ha. cbn [bind].
  rewrite (Get_named a "error"); [| reflexivity | reflexivity | exact Hn].
  rewrite (at_path_step e "attributes" ["error"]), Ha. reflexivity.
Qed.

(** what the callback of [some] and [filter] says of an event is what the
    data says *)
Lemma has_error_data e : has_error e = error_event e.
Proof.
  unfold has_error, holds, error_event.
  destruct (at_path e ["attributes"]) as [a |] eqn:Ha.
  - destruct (nullish a) eqn:Hn.
    + unfold event_error, error_of.
      rewrite (Get_named e "attributes");
        [| reflexivity | reflexivity | exact (at_path_container _ _ _ Ha)].
      rewrite Ha, (at_path_step e "attributes" ["error"]), Ha. cbn [bind].
      destruct a; try discriminate Hn; reflexivity.
    + rewrite event_error_data by (exists a; auto).
      destruct (error_of e); reflexivity.
  - unfold event_error, error_of.
    rewrite (at_path_step e "attributes" ["error"]), Ha.
    destruct (nullish e) eqn:He.
    + destruct e; try discriminate He; reflexivity.
    + rewrite (Get_named e "attributes");
        [| reflexivity | reflexivity | exact He].
      rewrite Ha. reflexivity.
Qed.

Lemma with_attributes_returns e : with_attributes e -> returns event_error e.
Proof.
  intros H. unfold returns. rewrite (event_error_data e H). eauto.
Qed.

(** the string [getStackTraces] makes of an event with an error *)
Lemma stack_trace_line e line :
  error_event e = true -> stack_trace e = Normal line -> trace_line e line.
Proof.
  unfold error_event. destruct (error_of e) as [error |] eqn:He;
    [| discriminate]. intros _.
  unfold error_of in He. rewrite at_path_step in He.
  destruct (at_path e ["attributes"]) as [a |] eqn:Ha; [| discriminate He].
  assert (Hne : nullish e = false) by exact (at_path_container _ _ _ Ha).
  assert (Hna : nullish a = false) by exact (at_path_container _ _ _ He).
  unfold stack_trace.
  rewrite (Get_named e "name"); [| reflexivity | reflexivity | exact Hne].
  fold (name_of e). cbn [bind]. intros H.
  bind_inv H as name_text Hname.
  rewrite (Get_named e "attributes") in H;
    [| reflexivity | reflexivity | exact Hne].
  rewrite Ha in H. cbn [bind] in H.
  rewrite (Get_named a "error") in H; [| reflexivity | reflexivity | exact Hna].
  rewrite He in H. cbn [bind] in H.
  bind_inv H as error_text Herror. injection H as <-.
  exists error, name_text, error_text. repeat split; auto.
  unfold error_of. rewrite at_path_step, Ha. exact He.
Qed.

(** C8.  [spanHasError] on an array of events that have attributes (and
    that has no property of its own named [some]) returns, and returns
    [true] if and only if at least one event of the array has, in its
    [attributes], an [error] that is truthy; on an array without events it
    returns [false].  Truthy is the language's [ToBoolean]: [false], [0],
    [NaN], the empty string, [null] and [undefined] are not. *)
Theorem spanHasError_iff elems props :
  has_own props "some" = false ->
  Forall with_attributes (present elems) ->
  exists b,
    spanHasError (VArray elems props) = Normal b /\
    (b = true <->
     exists e error, In e (present elems) /\ error_of e = Some error
                     /\ ToBoolean error = true) /\
    (present elems = [] -> b = false) /\
    (forall s, ToBoolean (VStr s) = negb (String.eqb s "")) /\
    (forall z, ToBoolean (VNum (num_of_Z z)) = negb (Z.eqb z 0)) /\
    (forall c, ToBoolean (VBool c) = c).
Proof.
  intros Hsome Hall. exists (existsb error_event (present elems)).
  split; [| split; [| split; [| split; [| split]]]].
  - unfold spanHasError, Array_some, array_receiver. rewrite Hsome. simpl.
    rewrite <- (existsb_pointwise has_error error_event _ has_error_data).
    apply some_loop_total.
    eapply Forall_impl; [| exact Hall]. apply with_attributes_returns.
  - rewrite existsb_exists. unfold error_event. split.
    + intros (e & Hin & He). exists e.
      destruct (error_of e) as [error |]; [| discriminate He].
      exists error. auto.
    + intros (e & error & Hin & He & Ht). exists e. rewrite He. auto.
  - intros ->. reflexivity.
  - reflexivity.
  - intros z. simpl. apply num_truthy_of_Z.
  - reflexivity.
Qed.

Lemma spanHasError_sound events b :
  spanHasError events = Normal b ->
  exists elems props,
    events = VArray elems props /\ has_own props "some" = false
    /\ b = existsb has_error (present elems).
Proof.
  unfold spanHasError, Array_some. intros H. bind_inv H as elems Hr.
  apply array_receiver_normal in Hr. destruct Hr as (props & -> & Hp).
  exists elems, props. repeat split; auto. apply some_loop_sound. exact H.
Qed.

Lemma getStackTraces_sound elems props st :
  getStackTraces (VArray elems props) = Normal st ->
  exists l,
    mapM stack_trace (filter has_error (present elems)) = Normal l
    /\ st = (if Nat.ltb 0 (List.length l) then Some l else None)
    /\ List.length l = List.length (filter has_error (present elems)).
Proof.
  unfold getStackTraces, Array_filter. intros H.
  bind_inv H as errors Hf. bind_inv Hf as elems' Hr.
  bind_inv H as l Hl. apply array_receiver_normal in Hr.
  destruct Hr as (props' & E & _). injection E as <- <-.
  apply filter_loop_sound in Hf. destruct Hf as [-> _].
  exists l. injection H as <-. repeat split; auto.
  eapply mapM_length. exact Hl.
Qed.

(** the steps of [span_row] the statements talk about *)
Lemma span_row_inv nestedSpan row :
  span_row nestedSpan = Normal row ->
  exists events hasError length,
    Get nestedSpan "events" = Normal events
    /\ (if ToBoolean events then spanHasError events else Normal false)
       = Normal hasError
    /\ (if hasError : bool
        then st <- getStackTraces events ;; Normal (Some st)
        else Normal None) = Normal (stackTraces row)
    /\ In {| kv_key := "error"; kv_value := VBool hasError |} (tags row)
    /\ Get events "length" = Normal length
    /\ (if ToBoolean length then transformEventsIntoLogs events else Normal [])
       = Normal (logs row).
Proof.
  unfold span_row. intros H.
  bind_inv H as events Hev. bind_inv H as hasError Hhas.
  bind_inv H as parentSpanId H1. bind_inv H as traceId H2.
  bind_inv H as spanId H3. bind_inv H as name H4.
  bind_inv H as startTime H5. bind_inv H as startMs H6.
  bind_inv H as durationInNanos H7. bind_inv H as nanos H8.
  bind_inv H as serviceName H9. bind_inv H as span H10.
  bind_inv H as attributes H11. bind_inv H as spanTags H12.
  bind_inv H as resource H13. bind_inv H as resourceAttributes H14.
  bind_inv H as serviceTags H15. bind_inv H as st Hst.
  bind_inv H as events' Hev'. bind_inv H as len Hlen.
  bind_inv H as lg Hlg. injection H as <-. simpl.
  rewrite Hev in Hev'. injection Hev' as <-.
  exists events, hasError, len. repeat split; auto.
  - destruct hasError; [| exact Hst].
    rewrite Hev in Hst. exact Hst.
  - apply in_or_app. right. left. reflexivity.
  - destruct (ToBoolean len); [| exact Hlg].
    rewrite Hev in Hlg. exact Hlg.
Qed.

Lemma stackTraces_of_row span row :
  transformSpan span = Normal row ->
  exists nestedSpan,
    (spanData <- Get span "_source" ;; nestedSpan_of spanData)
    = Normal nestedSpan /\
    (stackTraces row <> None <->
     exists e, In e (events_of nestedSpan) /\ has_error e = true) /\
    (forall st, stackTraces row = Some st ->
       exists l, st = Some l /\ l <> []
                 /\ mapM stack_trace (filter has_error (events_of nestedSpan))
                    = Normal l).
Proof.
  unfold transformSpan. intros H.
  bind_inv H as spanData Hsrc. bind_inv H as nestedSpan Hnested.
  exists nestedSpan. split; [rewrite Hsrc; exact Hnested |].
  apply span_row_inv in H.
  destruct H as (events & hasError & len & Hev & Hhas & Hst & _).
  unfold events_of. rewrite Hev. destruct hasError.
  - destruct (ToBoolean events); [| discriminate Hhas].
    apply spanHasError_sound in Hhas.
    destruct Hhas as (elems & props & -> & _ & Hex). symmetry in Hex.
    bind_inv Hst as st Hget. apply getStackTraces_sound in Hget.
    destruct Hget as (l & Hl & -> & Hlen). injection Hst as <-.
    assert (Hne : l <> []).
    { intros ->. apply existsb_filter_nonempty in Hex.
      apply Hex. apply length_zero_iff_nil. symmetry. exact Hlen. }
    assert (Hlt : Nat.ltb 0 (List.length l) = true).
    { apply Nat.ltb_lt. destruct l; [congruence | simpl; lia]. }
    rewrite Hlt. split.
    + split; [| discriminate]. intros _.
      apply existsb_exists in Hex. exact Hex.
    + intros st E. injection E as <-. exists l. auto.
  - injection Hst as <-. split.
    + split; [congruence |]. intros (e & Hin & He). exfalso.
      destruct (ToBoolean events) eqn:Et.
      * apply spanHasError_sound in Hhas.
        destruct Hhas as (elems & props & -> & _ & Hex).
        symmetry in Hex. rewrite <- not_true_iff_false in Hex.
        apply Hex. apply existsb_exists. eauto.
      * destruct events; simpl in *; try contradiction; discriminate.
    + discriminate.
Qed.

(** the string of an event whose name and error are strings *)
Lemma stack_trace_strings props attributes n e :
  own_get props "name" = Some (VStr n) ->
  own_get props "attributes" = Some (VObject attributes) ->
  own_get attributes "error" = Some (VStr e) ->
  stack_trace (VObject props) = Normal (n ++ ": " ++ e)%string.
Proof.
  intros Hn Ha He. unfold stack_trace. simpl.
  rewrite Hn, Ha. simpl. rewrite He. reflexivity.
Qed.

Lemma ToString_primitive v :
  Lodash.isObject v = false -> exists s, ToString v = Normal s.
Proof.
  destruct v as [| | [] | | | |]; simpl; try discriminate; eauto.
Qed.

Lemma own_read props k :
  exists x, Get (VObject props) k = Normal x
            /\ (own_get props k = Some x \/ x = VUndefined).
Proof.
  simpl. destruct (own_get props k); eauto.
Qed.

Lemma primitive_read props k x :
  primitive_at props k -> Get (VObject props) k = Normal x ->
  Lodash.isObject x = false.
Proof.
  unfold primitive_at. simpl. intros H.
  destruct (own_get props k) as [v |]; intros E; injection E as <-; auto.
Qed.

Lemma typed_event_error e : typed_event e -> returns event_error e.
Proof.
  intros (props & attributes & -> & Ha & _).
  unfold returns, event_error. simpl. rewrite Ha. simpl.
  destruct (own_get attributes "error"); eauto.
Qed.

Lemma typed_event_stack_trace e :
  typed_event e -> exists s, stack_trace e = Normal s.
Proof.
  intros (props & attributes & -> & Ha & Hn & _ & He).
  unfold stack_trace.
  destruct (own_read props "name") as (n & En & _). rewrite En. cbn [bind].
  destruct (ToString_primitive n (primitive_read _ _ _ Hn En)) as [s1 ->].
  cbn [bind]. simpl Get at 1. rewrite Ha. cbn [bind].
  destruct (own_read attributes "error") as (x & Ex & _). rewrite Ex.
  cbn [bind].
  destruct (ToString_primitive x (primitive_read _ _ _ He Ex)) as [s2 ->].
  cbn [bind]. eauto.
Qed.

Lemma convertToKeyValue_total v :
  nullish v = false -> exists kvs, convertToKeyValue v = Normal kvs.
Proof.
  intros H. unfold convertToKeyValue, Object_keys. rewrite H. cbn [bind].
  apply mapM_total. apply Forall_forall. intros k _.
  destruct (Get_normal v k H) as [x ->]. cbn [bind]. eauto.
Qed.

Lemma truthy_not_nullish v : ToBoolean v = true -> nullish v = false.
Proof. destruct v; simpl; congruence. Qed.

Lemma transformEventsIntoLogs_total elems props :
  total_on_primitives Date_getTime ->
  has_own props "map" = false ->
  Forall typed_event (present elems) ->
  exists lg, transformEventsIntoLogs (VArray elems props) = Normal lg.
Proof.
  intros Hdate Hmap Hall.
  unfold transformEventsIntoLogs, Array_map, array_receiver.
  rewrite Hmap. cbn [bind]. apply mapM_total.
  induction elems as [| [e |] r IH]; simpl in Hall.
  - constructor.
  - inversion Hall as [| ? ? He Hr]; subst. constructor; [| auto].
    destruct He as (ep & attributes & -> & _ & Hn & Ht & _).
    destruct (own_read ep "time") as (t & Et & _). rewrite Et. cbn [bind].
    destruct (Hdate t (primitive_read _ _ _ Ht Et)) as [ms ->]. cbn [bind].
    destruct (own_read ep "name") as (n & En & _). rewrite En. cbn [bind].
    eauto.
  - constructor; eauto.
Qed.

(** On a normalized span typed as [OpenSearchSpan] types it, with its
    [events] array, the row is produced. *)
Lemma span_row_returns props elems eprops :
  total_on_primitives ToNumber -> total_on_primitives Date_getTime ->
  own_get props "events" = Some (VArray elems eprops) ->
  has_own eprops "some" = false -> has_own eprops "filter" = false ->
  has_own eprops "map" = false ->
  Forall typed_event (present elems) ->
  primitive_at props "startTime" -> primitive_at props "durationInNanos" ->
  exists row, span_row (VObject props) = Normal row.
Proof.
  intros Hnum Hdate Hev Hsome Hfilter Hmap Hall Hstart Hdur.
  assert (Hret : Forall (returns event_error) (present elems)).
  { eapply Forall_impl; [| exact Hall]. apply typed_event_error. }
  assert (E : Get (VObject props) "events" = Normal (VArray elems eprops)).
  { simpl. rewrite Hev. reflexivity. }
  unfold span_row. rewrite !E. cbn [bind ToBoolean].
  unfold spanHasError, Array_some, array_receiver. rewrite Hsome.
  cbn [bind]. rewrite (some_loop_total _ _ Hret). cbn [bind].
  destruct (own_read props "parentSpanId") as (x1 & -> & _). cbn [bind].
  destruct (own_read props "traceId") as (x2 & -> & _). cbn [bind].
  destruct (own_read props "spanId") as (x3 & -> & _). cbn [bind].
  destruct (own_read props "name") as (x4 & -> & _). cbn [bind].
  destruct (own_read props "startTime") as (x5 & E5 & _). rewrite E5.
  cbn [bind].
  destruct (Hdate x5 (primitive_read _ _ _ Hstart E5)) as [ms ->]. cbn [bind].
  destruct (own_read props "durationInNanos") as (x6 & E6 & _). rewrite E6.
  cbn [bind].
  destruct (Hnum x6 (primitive_read _ _ _ Hdur E6)) as [nanos ->]. cbn [bind].
  destruct (own_read props "serviceName") as (x7 & -> & _). cbn [bind].
  destruct (own_read props "span") as (sp & -> & _). cbn [bind].
  assert (Hopt : forall v k, exists x, GetOpt v k = Normal x
                   /\ (ToBoolean x = true -> nullish v = false)).
  { intros v k. unfold GetOpt. destruct (nullish v) eqn:N.
    - exists VUndefined. split; [reflexivity | discriminate].
    - destruct (Get_normal v k N) as [x ->]. eauto. }
  destruct (Hopt sp "attributes") as (at1 & -> & _). cbn [bind].
  destruct (convertToKeyValue_total
              (if nullish at1 then VObject [] else at1)) as [tags1 ->].
  { destruct (nullish at1) eqn:N; [reflexivity | exact N]. }
  cbn [bind].
  destruct (own_read props "resource") as (rs & Ers & _). rewrite !Ers.
  cbn [bind].
  destruct (Hopt rs "attributes") as (at2 & Eat2 & Hrs). rewrite Eat2.
  cbn [bind].
  assert (Hst : exists st,
            (if ToBoolean at2
             then a <- Get rs "attributes" ;; convertToKeyValue a
             else Normal []) = Normal st).
  { destruct (ToBoolean at2) eqn:T; [| eauto].
    unfold GetOpt in Eat2. rewrite (Hrs eq_refl) in Eat2. rewrite Eat2.
    cbn [bind]. apply convertToKeyValue_total.
    apply truthy_not_nullish. exact T. }
  destruct Hst as [st ->]. cbn [bind].
  assert (Hstack : exists s,
            (if existsb (holds event_error) (present elems)
             then st <- getStackTraces (VArray elems eprops) ;;
                  Normal (Some st)
             else Normal None) = Normal s).
  { destruct (existsb _ _); [| eauto].
    unfold getStackTraces, Array_filter, array_receiver. rewrite Hfilter.
    cbn [bind]. rewrite (filter_loop_total _ _ Hret). cbn [bind].
    destruct (mapM_total stack_trace
                (filter (holds event_error) (present elems))) as [l ->].
    { apply Forall_forall. intros e He. apply filter_In in He.
      destruct He as [He _]. rewrite Forall_forall in Hall.
      apply typed_event_stack_trace. auto. }
    cbn [bind]. eauto. }
  destruct Hstack as [s ->]. cbn [bind]. cbn [Get].
  rewrite String.eqb_refl. cbn [bind].
  destruct (ToBoolean (VNum (num_of_nat (Datatypes.length elems)))).
  - destruct (transformEventsIntoLogs_total elems eprops Hdate Hmap Hall)
      as [lg ->].
    cbn [bind]. eauto.
  - cbn [bind]. eauto.
Qed.

(** C1.  When [transformTraceResponse]'s callback assembles a row for a
    span document, the row has the key [stackTraces] if and only if the
    normalized span has an event whose [attributes.error] is truthy; the
    key then holds a list (never [undefined]), the list is not empty, and
    it has, in the order of the events, one string for each such event and
    no other: the event's name, a colon and a space, and the event's
    [attributes.error].  The callback does assemble a row for every
    document whose normalized form is typed as [OpenSearchSpan] types it,
    on an engine whose conversions of primitives do not throw. *)
Theorem stackTraces_iff_error_events span :
  (forall row, transformSpan span = Normal row ->
     exists nestedSpan,
       (spanData <- Get span "_source" ;; nestedSpan_of spanData)
       = Normal nestedSpan /\
       (stackTraces row <> None <->
        exists e error, In e (events_of nestedSpan)
                        /\ error_of e = Some error
                        /\ ToBoolean error = true) /\
       (forall st, stackTraces row = Some st ->
          exists lines,
            st = Some lines /\ lines <> []
            /\ Forall2 trace_line
                       (filter error_event (events_of nestedSpan)) lines))
  /\ (forall spanData props,
        total_on_primitives ToNumber -> total_on_primitives Date_getTime ->
        Get span "_source" = Normal spanData ->
        nestedSpan_of spanData = Normal (VObject props) ->
        typed_span props ->
        exists row, transformSpan span = Normal row).
Proof.
  split.
  - intros row Hrow. apply stackTraces_of_row in Hrow.
    destruct Hrow as (nestedSpan & Hnested & Hiff & Hlist).
    exists nestedSpan. split; [exact Hnested |]. split.
    + rewrite Hiff. split.
      * intros (e & Hin & He). rewrite has_error_data in He.
        unfold error_event in He. exists e.
        destruct (error_of e) as [error |]; [| discriminate He].
        exists error. auto.
      * intros (e & error & Hin & He & Ht). exists e.
        rewrite has_error_data. unfold error_event. rewrite He. auto.
    + intros st Hst. destruct (Hlist st Hst) as (l & -> & Hne & Hl).
      exists l. split; [reflexivity |]. split; [exact Hne |].
      rewrite (filter_pointwise has_error error_event _ has_error_data) in Hl.
      apply mapM_Forall2 in Hl.
      apply (Forall2_impl_Forall (fun e => error_event e = true)
               (fun e line => stack_trace e = Normal line)).
      * intros e line. apply stack_trace_line.
      * apply Forall_forall. intros e He. apply filter_In in He. tauto.
      * exact Hl.
  - intros spanData props Hnum Hdate Hsrc Hnested (elems & Hev & Hall & Hs & Hd).
    unfold transformSpan. rewrite Hsrc. cbn [bind]. rewrite Hnested.
    cbn [bind]. apply (span_row_returns props elems []); auto.
Qed.

End SpanRows.

Section MissingEvents.
Context {JN : JsNumber} {JE : JsEngine}.

Lemma settles_Get v k : settles (Get v k).
Proof.
  destruct v; simpl;
    repeat match goal with
           | |- context [match ?x with _ => _ end] => destruct x
           | |- context [if ?x then _ else _] => destruct x
           end; auto with settles.
Qed.

Lemma settles_GetOpt v k : settles (GetOpt v k).
Proof.
  unfold GetOpt. destruct (nullish v); [apply settles_Normal | apply settles_Get].
Qed.

Lemma settles_converted o : settles (converted o).
Proof. destruct o; simpl; auto with settles. Qed.

Lemma settles_convertToKeyValue v : settles (convertToKeyValue v).
Proof.
  unfold convertToKeyValue, Object_keys.
  destruct (nullish v); cbn [bind]; [apply settles_Throw |].
  apply settles_mapM. intros k.
  apply settles_bind; [apply settles_Get | intros x; apply settles_Normal].
Qed.

(** one step of a chain that ends in a throw: either the step throws, or
    the chain goes on *)
Ltac settle :=
  repeat first
    [ apply settles_Get | apply settles_GetOpt | apply settles_converted
    | apply settles_convertToKeyValue | apply settles_Normal
    | apply settles_if | apply settles_bind; [| intros ?] ].

Ltac step :=
  match goal with
  | |- bind ?c _ = Throw TypeError =>
      let H := fresh in
      assert (H : settles c) by (unfold ToNumber, Date_getTime; settle);
      destruct H as [[? ->] | ->]; [cbn [bind] | reflexivity]
  end.

Lemma span_row_missing_events props :
  own_get props "events" = None ->
  span_row (VObject props) = Throw TypeError.
Proof.
  intros H. unfold span_row.
  assert (E : Get (VObject props) "events" = Normal VUndefined).
  { simpl. rewrite H. reflexivity. }
  rewrite !E. cbn [bind ToBoolean].
  do 15 step. reflexivity.
Qed.

(** C2 (what the code does).  For a document whose normalized form has no
    [events] key the callback throws a [TypeError]: line 143 guards
    [nestedSpan.events ? ... : false], line 161 reads
    [nestedSpan.events.length] unguarded.  No row is produced. *)
Theorem missing_events_throws span spanData props :
  Get span "_source" = Normal spanData ->
  nestedSpan_of spanData = Normal (VObject props) ->
  own_get props "events" = None ->
  transformSpan span = Throw TypeError.
Proof.
  intros Hsrc Hnested Hev. unfold transformSpan.
  rewrite Hsrc. cbn [bind]. rewrite Hnested. cbn [bind].
  apply span_row_missing_events. exact Hev.
Qed.

End MissingEvents.


Import Lodash.

Section OwnProperties.
Context {JN : JsNumber}.

Lemma own_get_obj_set_same props k v :
  own_get (obj_set props k v) k = Some v.
Proof.
  induction props as [| [k' v'] r IH]; simpl.
  - rewrite String.eqb_refl. reflexivity.
  - destruct (String.eqb k' k) eqn:E; simpl; rewrite E; auto.
Qed.

Lemma own_get_obj_set_other props k v k' :
  String.eqb k k' = false ->
  own_get (obj_set props k v) k' = own_get props k'.
Proof.
  intros Hne. induction props as [| [k0 v0] r IH]; simpl.
  - rewrite Hne. reflexivity.
  - destruct (String.eqb k0 k) eqn:E; simpl.
    + apply String.eqb_eq in E. subst k0. rewrite Hne. reflexivity.
    + destruct (String.eqb k0 k'); auto.
Qed.

Lemma own_get_None props k :
  own_get props k = None <-> ~ In k (map fst props).
Proof.
  induction props as [| [k' v'] r IH]; simpl; [tauto |].
  destruct (String.eqb k' k) eqn:E.
  - apply String.eqb_eq in E. split; [discriminate | tauto].
  - apply String.eqb_neq in E. tauto.
Qed.

Lemma obj_set_fresh props k v :
  own_get props k = None -> obj_set props k v = props ++ [(k, v)].
Proof.
  induction props as [| [k' v'] r IH]; simpl; [reflexivity |].
  destruct (String.eqb k' k); [discriminate |].
  intros H. rewrite IH; auto.
Qed.

Lemma own_get_middle done k v rest :
  own_get done k = None -> own_get (done ++ (k, v) :: rest) k = Some v.
Proof.
  induction done as [| [k' v'] r IH]; simpl.
  - rewrite String.eqb_refl. reflexivity.
  - destruct (String.eqb k' k); [discriminate | exact IH].
Qed.

End OwnProperties.

Section PathFacts.
Context {JN : JsNumber} {JE : JsEngine}.

Lemma plain_not_deep s : plain_segment s = true -> reIsDeepProp s = false.
Proof.
  induction s as [| c r IH]; simpl; [reflexivity |].
  unfold is_delimiter. intros H. apply andb_prop in H. destruct H as [Hc Hr].
  destruct (Ascii.eqb c "."); [discriminate |].
  destruct (Ascii.eqb c "["); [discriminate |]. simpl. auto.
Qed.

(** a key that is no path is assigned as it is *)
Lemma set_key props k v :
  reIsDeepProp k = false -> unsafe_key k = false ->
  Lodash.set (VObject props) k v = assignValue (VObject props) k v.
Proof.
  intros Hd Hu. unfold Lodash.set, baseSet, castPath, isKey. simpl.
  rewrite Hd. rewrite orb_true_r. simpl. unfold toKey. rewrite Hu.
  reflexivity.
Qed.

Lemma assignValue_fresh props k v :
  own_get props k = None ->
  assignValue (VObject props) k v = Normal (VObject (props ++ [(k, v)])).
Proof.
  intros H. unfold assignValue. cbn [own_value]. rewrite H.
  cbn [baseAssignValue]. rewrite obj_set_fresh by exact H. reflexivity.
Qed.

(** a container and a primitive are never the same value *)
Lemma eq_value_object x y :
  isObject x <> isObject y -> eq_value x y = false.
Proof.
  destruct x, y; simpl; intros H; try reflexivity; congruence.
Qed.


Lemma append_snoc run c r :
  ((run ++ String c "") ++ r)%string = (run ++ String c r)%string.
Proof. induction run; simpl; congruence. Qed.

Lemma append_empty run : (run ++ "")%string = run.
Proof. induction run; simpl; congruence. Qed.

Lemma scan_plain a s run :
  plain_segment a = true -> scan (a ++ s) run 0 = scan s (run ++ a) 0.
Proof.
  revert run. induction a as [| c r IH]; simpl; intros run H.
  - rewrite append_empty. reflexivity.
  - apply andb_prop in H. destruct H as [Hc Hr].
    apply negb_true_iff in Hc. rewrite Hc. rewrite IH by exact Hr.
    rewrite append_snoc. reflexivity.
Qed.


Lemma scan_plain_end b run :
  plain_segment b = true -> scan b run 0 = flush (run ++ b).
Proof.
  revert run. induction b as [| c r IH]; simpl; intros run H.
  - rewrite append_empty. reflexivity.
  - apply andb_prop in H. destruct H as [Hc Hr].
    apply negb_true_iff in Hc. rewrite Hc. rewrite IH by exact Hr.
    rewrite append_snoc. reflexivity.
Qed.

Lemma stringToPath_dotted a b :
  plain_segment a = true -> plain_segment b = true ->
  stringToPath (a ++ String "." b) = [a; b].
Proof.
  intros Ha Hb. unfold stringToPath.
  rewrite scan_plain by exact Ha. simpl.
  rewrite (scan_plain_end b "") by exact Hb. simpl.
  assert (He : empty_segment (String "." b)
               = if String.eqb b "" then true else false).
  { destruct b as [| c r]; [reflexivity |]. simpl in Hb.
    apply andb_prop in Hb. destruct Hb as [Hc _].
    unfold empty_segment, strip_separator, is_delimiter in *.
    destruct c as [[] [] [] [] [] [] [] []]; try reflexivity;
      discriminate Hc. }
  rewrite He. unfold flush.
  destruct a as [| c r]; destruct b as [| d t]; try reflexivity.
  - simpl in Ha. apply andb_prop in Ha. destruct Ha as [Hc _].
    destruct c as [[] [] [] [] [] [] [] []]; try reflexivity; discriminate Hc.
  - simpl in Ha. apply andb_prop in Ha. destruct Ha as [Hc _].
    destruct c as [[] [] [] [] [] [] [] []]; try reflexivity; discriminate Hc.
Qed.

Lemma dotted_is_deep a b :
  plain_segment a = true -> reIsDeepProp (a ++ String "." b) = true.
Proof.
  induction a as [| c r IH]; simpl; [reflexivity |].
  unfold is_delimiter. intros H. apply andb_prop in H. destruct H as [Hc Hr].
  destruct (Ascii.eqb c "."); [reflexivity |].
  destruct (Ascii.eqb c "["); [discriminate |]. simpl. auto.
Qed.

Lemma dotted_not_plain a b : reIsPlainProp (a ++ String "." b) = false.
Proof.
  induction a as [| c r IH]; simpl; [reflexivity |].
  rewrite IH. apply andb_false_r.
Qed.

Lemma dotted_differs a b : String.eqb a (a ++ String "." b) = false.
Proof.
  induction a as [| c r IH]; simpl; [reflexivity |].
  rewrite Ascii.eqb_refl. exact IH.
Qed.

End PathFacts.

Section Normalization.
Context {JN : JsNumber} {JE : JsEngine}.

Lemma nestedSpan_of_object props :
  nestedSpan_of (VObject props)
  = foldM (set_from (VObject props)) (map fst props) (VObject []).
Proof. reflexivity. Qed.

Lemma foldM_flat done rest :
  NoDup (map fst (done ++ rest)) ->
  Forall (fun k => reIsDeepProp k = false /\ unsafe_key k = false)
         (map fst rest) ->
  foldM (set_from (VObject (done ++ rest))) (map fst rest) (VObject done)
  = Normal (VObject (done ++ rest)).
Proof.
  revert done. induction rest as [| [k v] r IH]; intros done Hnd Hall; simpl.
  - rewrite app_nil_r. reflexivity.
  - assert (Hfresh : own_get done k = None).
    { apply own_get_None. rewrite map_app in Hnd. simpl in Hnd.
      apply NoDup_remove_2 in Hnd. intros Hin. apply Hnd.
      apply in_or_app. left. exact Hin. }
    unfold set_from at 1. simpl.
    rewrite own_get_middle by exact Hfresh. simpl.
    inversion Hall as [| ? ? [Hd Hu] Hall']; subst.
    rewrite set_key by assumption. rewrite assignValue_fresh by exact Hfresh.
    cbn [bind].
    specialize (IH (done ++ [(k, v)])).
    rewrite <- app_assoc in IH. simpl in IH. apply IH; assumption.
Qed.

(** C9, amended.  A document (an object, so its keys are distinct) none of
    whose keys is a lodash path (a key with a dot or with a bracketed
    segment, [reIsDeepProp]) or one of the three keys [baseSet] refuses is
    its own normalized form: the same keys, in the same order, with the
    same values. *)
Theorem flat_document_unchanged props :
  NoDup (map fst props) ->
  Forall (fun k => reIsDeepProp k = false /\ unsafe_key k = false)
         (map fst props) ->
  nestedSpan_of (VObject props) = Normal (VObject props).
Proof.
  intros Hnd Hall. rewrite nestedSpan_of_object.
  apply (foldM_flat [] props); assumption.
Qed.

(** the path of the key [a.b] *)
Lemma castPath_pair a b props :
  plain_segment a = true -> plain_segment b = true ->
  has_own props (a ++ String "." b) = false ->
  castPath (a ++ String "." b) (VObject props) = [a; b].
Proof.
  intros Ha Hb Hp. unfold castPath, isKey. simpl.
  rewrite dotted_not_plain, dotted_is_deep, Hp by exact Ha. simpl.
  apply stringToPath_dotted; assumption.
Qed.

(** [set] of [a.b] on an object whose [a] is absent or holds a primitive:
    a new object [{b: v}] takes the place *)
Lemma set_pair_over_primitive a b props v :
  plain_segment a = true -> plain_segment b = true ->
  unsafe_key a = false -> unsafe_key b = false -> isIndex b = false ->
  has_own props (a ++ String "." b) = false ->
  (exists s, own_get props a = Some s /\ isObject s = false)
  \/ (own_get props a = None /\ inherited a = false) ->
  Lodash.set (VObject props) (a ++ String "." b) v
  = Normal (VObject (obj_set props a (VObject [(b, v)]))).
Proof.
  intros Ha Hb Hua Hub Hib Hown Hat.
  unfold Lodash.set, baseSet. cbn [nullish isObject negb].
  rewrite castPath_pair by assumption.
  cbn [walk]. unfold toKey. rewrite Hua, Hub.
  assert (Hread : exists s, read (VObject props) a = Normal s
                            /\ isObject s = false
                            /\ assignValue (VObject props) a (VObject [])
                               = Normal (VObject (obj_set props a (VObject [])))).
  { unfold read, assignValue. cbn [own_value may_inherit].
    destruct Hat as [(s & Hs & Hprim) | [Hnone Hinh]].
    - exists s. rewrite Hs. repeat split; auto.
      rewrite eq_value_object; [reflexivity |].
      rewrite Hprim. discriminate.
    - exists VUndefined. rewrite Hnone, Hinh. repeat split; reflexivity. }
  destruct Hread as (s & -> & Hprim & Hassign). cbn [bind].
  rewrite Hprim, Hib, Hassign. cbn [bind].
  unfold read. cbn [own_value]. rewrite own_get_obj_set_same. cbn [bind isObject].
  rewrite assignValue_fresh by reflexivity. cbn [bind with_child app].
  f_equal. f_equal.
  clear. induction props as [| [k x] r IH]; simpl.
  - rewrite String.eqb_refl. reflexivity.
  - destruct (String.eqb k a) eqn:E; simpl; rewrite E; [reflexivity |].
    rewrite IH. reflexivity.
Qed.

(** C3, amended.  Keys that disagree on the nesting raise no error: they
    are resolved silently, the later key winning.  After [a] was set to a
    scalar, the key [a.b] replaces the scalar by the mapping [{b: v}];
    after [a.b] was set, the key [a] replaces the mapping by the scalar.
    In the second case [a] is not an integer, which the engine would
    enumerate first, and not the name of a member of [Object.prototype],
    which [a.b] would walk into. *)
Theorem conflicting_paths_overwrite a b s v :
  plain_segment a = true -> plain_segment b = true ->
  unsafe_key a = false -> unsafe_key b = false ->
  isIndex b = false -> isObject s = false ->
  nestedSpan_of (VObject [(a, s); ((a ++ String "." b)%string, v)])
  = Normal (VObject [(a, VObject [(b, v)])])
  /\ (integer_name a = false -> inherited a = false ->
      nestedSpan_of (VObject [((a ++ String "." b)%string, v); (a, s)])
      = Normal (VObject [(a, s)])).
Proof.
  intros Ha Hb Hua Hub Hib Hs.
  assert (Hda : reIsDeepProp a = false) by (apply plain_not_deep; exact Ha).
  assert (E : String.eqb (a ++ String "." b) a = false).
  { rewrite String.eqb_sym. apply dotted_differs. }
  split.
  - unfold nestedSpan_of, set_from. cbn [Object_keys nullish own_keys map fst
      bind foldM Get own_get].
    rewrite !String.eqb_refl, dotted_differs. cbn [bind].
    rewrite set_key, assignValue_fresh by (assumption || reflexivity).
    cbn [bind app].
    rewrite (set_pair_over_primitive a b [(a, s)] v); try assumption.
    + cbn [obj_set]. rewrite String.eqb_refl. reflexivity.
    + unfold has_own. cbn [own_get]. rewrite dotted_differs. reflexivity.
    + left. exists s. cbn [own_get]. rewrite String.eqb_refl. auto.
  - intros _ Hinh.
    unfold nestedSpan_of, set_from. cbn [Object_keys nullish own_keys map fst
      bind foldM Get own_get].
    rewrite E, !String.eqb_refl. cbn [bind].
    rewrite (set_pair_over_primitive a b [] v); try assumption;
      [| reflexivity | right; split; [reflexivity | exact Hinh]].
    cbn [bind obj_set].
    rewrite set_key by assumption.
    unfold assignValue. cbn [own_value own_get]. rewrite String.eqb_refl.
    rewrite eq_value_object by (rewrite Hs; discriminate).
    cbn [baseAssignValue obj_set]. rewrite String.eqb_refl. reflexivity.
Qed.

End Normalization.

Section TraceListFacts.
Context {JN : JsNumber}.

Lemma foldM_push_bucket done rest :
  Forall (fun b => trace_group_buckets b <> []) rest ->
  foldM push_bucket rest (columns_of done)
  = Normal (columns_of (done ++ rest)).
Proof.
  intros H. revert done. induction H as [| b r Hb _ IH]; intros done; simpl.
  - rewrite app_nil_r. reflexivity.
  - unfold push_bucket at 1.
    destruct (trace_group_buckets b) as [| g gs] eqn:E; [congruence |].
    simpl. specialize (IH (done ++ [b])).
    rewrite <- app_assoc in IH. simpl in IH. rewrite <- IH. f_equal.
    unfold columns_of. rewrite !map_app. simpl.
    unfold first_group. rewrite E. reflexivity.
Qed.

Lemma collect_all_grouped r rs :
  Forall (fun b => trace_group_buckets b <> [])
         (aggregations_traces_buckets r) ->
  collect (r :: rs) = Normal (columns_of (aggregations_traces_buckets r)).
Proof.
  intros H. unfold collect. simpl.
  apply (foldM_push_bucket [] _ H).
Qed.

Lemma settles_push_bucket c b : settles (push_bucket c b).
Proof.
  unfold push_bucket. destruct (trace_group_buckets b); simpl;
    auto with settles.
Qed.

Lemma settles_collect response : settles (collect response).
Proof.
  unfold collect. destruct response as [| r rs]; simpl; [apply settles_Throw |].
  generalize no_columns.
  induction (aggregations_traces_buckets r) as [| b bs IH]; intros c; simpl.
  - apply settles_Normal.
  - apply settles_bind; [apply settles_push_bucket | exact IH].
Qed.

Lemma foldM_push_bucket_throws bs c :
  Exists (fun b => trace_group_buckets b = []) bs ->
  foldM push_bucket bs c = Throw TypeError.
Proof.
  intros H. revert c. induction H as [b r Hb | b r _ IH]; intros c; simpl.
  - unfold push_bucket. rewrite Hb. reflexivity.
  - destruct (settles_push_bucket c b) as [[c' ->] | ->]; simpl; auto.
Qed.

(** rows from columns: the transposition of five mapped columns *)
Lemma rows_of_mapped_columns {A : Type} (f1 f2 f3 f4 f5 : A -> value) l :
  map (fun i => [nth i (map f1 l) VUndefined; nth i (map f2 l) VUndefined;
                 nth i (map f3 l) VUndefined; nth i (map f4 l) VUndefined;
                 nth i (map f5 l) VUndefined])
      (seq 0 (List.length l))
  = map (fun x => [f1 x; f2 x; f3 x; f4 x; f5 x]) l.
Proof.
  induction l as [| x r IH]; [reflexivity |].
  cbn [List.length]. rewrite <- cons_seq, <- seq_shift, map_cons, map_map.
  cbn [map nth]. f_equal. exact IH.
Qed.

Lemma frame_rows_columns m ls bs :
  frame_rows
    {| meta_preferredVisualisationType := m;
       frame_fields :=
         [ {| name := "Trace Id"; type := FieldType_string;
              values := traceIds (columns_of bs); config_links := ls |};
           plain_field "Trace Group" FieldType_string (traceGroups (columns_of bs));
           plain_field "Latency (ms)" FieldType_number (latency (columns_of bs));
           plain_field "Error Count" FieldType_number (errors (columns_of bs));
           plain_field "Last Updated" FieldType_time (lastUpdated (columns_of bs)) ] |}
  = map (fun b => summary_row b (first_group b)) bs.
Proof.
  unfold frame_rows. cbn [frame_fields values plain_field columns_of traceIds
    traceGroups latency errors lastUpdated map].
  rewrite length_map. apply rows_of_mapped_columns.
Qed.

Lemma summary_rows bs :
  Forall (fun b => trace_group_buckets b <> []) bs ->
  Forall2 summary_of bs (map (fun b => summary_row b (first_group b)) bs).
Proof.
  induction 1 as [| b r Hb _ IH]; simpl; constructor; [| exact IH].
  unfold summary_of, first_group.
  destruct (trace_group_buckets b) as [| g gs]; [congruence |].
  exists g, gs. auto.
Qed.

(** C4.  When every bucket of the first response has at least one
    [trace_group] sub-bucket, [createListTracesDataFrame] returns one frame
    whose rows are, bucket by bucket and in the order of the buckets, the
    bucket's key, the key of its first trace group, [latency.value],
    [error_count.doc_count] and [last_updated.value]: one row per bucket,
    none dropped, none added. *)
Theorem one_row_per_bucket t ts r rs uid nm :
  nullish t = false ->
  Forall (fun b => trace_group_buckets b <> [])
         (aggregations_traces_buckets r) ->
  exists frame refId,
    createListTracesDataFrame (t :: ts) (r :: rs) uid nm
    = Normal {| data := [frame]; key := refId |}
    /\ Forall2 summary_of (aggregations_traces_buckets r) (frame_rows frame).
Proof.
  intros Ht Hg. unfold createListTracesDataFrame.
  rewrite (collect_all_grouped r rs Hg). cbn [bind].
  unfold refId_of. cbn [nth].
  destruct (Get_normal t "refId" Ht) as [refId ->]. cbn [bind].
  eexists. exists refId. split; [reflexivity |].
  rewrite frame_rows_columns. apply summary_rows. exact Hg.
Qed.

(** C5, amended.  When some bucket of the first response has no
    [trace_group] sub-bucket, [createListTracesDataFrame] throws the
    [TypeError] of reading [.key] of [undefined]: the call returns no frame,
    so no row of any bucket, and no value is put in the place of the
    missing one. *)
Theorem bucket_without_group_throws targets r rs uid nm :
  Exists (fun b => trace_group_buckets b = [])
         (aggregations_traces_buckets r) ->
  createListTracesDataFrame targets (r :: rs) uid nm = Throw TypeError.
Proof.
  intros H. unfold createListTracesDataFrame, collect. simpl.
  rewrite foldM_push_bucket_throws by exact H. reflexivity.
Qed.

(** C10.  [createListTracesDataFrame] and the earlier
    [createTracesDataFrame] read [response[0]] only: two response arrays
    with the same first element (or both empty) give the same result. *)
Theorem only_first_response targets resp1 resp2 uid nm :
  hd_error resp1 = hd_error resp2 ->
  createListTracesDataFrame targets resp1 uid nm
  = createListTracesDataFrame targets resp2 uid nm
  /\ createTracesDataFrame targets resp1 = createTracesDataFrame targets resp2.
Proof.
  intros H.
  assert (E : collect resp1 = collect resp2).
  { unfold collect.
    destruct resp1 as [| r1 rs1], resp2 as [| r2 rs2]; simpl in *;
      congruence. }
  unfold createListTracesDataFrame, createTracesDataFrame. rewrite E.
  split; reflexivity.
Qed.

End TraceListFacts.

Section QueryFacts.
Context {JN : JsNumber}.

Lemma object_literal_app entries tail :
  object_literal (entries ++ tail)
  = VObject (fold_left (fun props e => obj_set props (fst e) (snd e)) tail
               (fold_left (fun props e => obj_set props (fst e) (snd e))
                          entries [])).
Proof. unfold object_literal. rewrite fold_left_app. reflexivity. Qed.

Lemma createDefaultTraceQuery_body query rest :
  at_path (createDefaultTraceQuery query) ("luceneQueryObj" :: rest)
  = at_path trace_list_body rest.
Proof.
  unfold createDefaultTraceQuery. rewrite object_literal_app. simpl.
  rewrite own_get_obj_set_same. reflexivity.
Qed.

Lemma createSingleTraceQuery_body query rest :
  at_path (createSingleTraceQuery query) ("luceneQueryObj" :: rest)
  = at_path (one_trace_body "0000000000000000061141afde96cda8") rest.
Proof.
  unfold createSingleTraceQuery. rewrite object_literal_app. simpl.
  rewrite own_get_obj_set_same. reflexivity.
Qed.

(** C7.  For every base query, [createDefaultTraceQuery] returns a query
    in mode [traces] whose body is: size 10; a [bool] query whose only
    clause is the [must] clause [startTime] in [$timeFrom, $timeTo]; and
    the aggregation [traces], a [terms] aggregation on [traceId] of size
    100 ordered by ascending [_key], with four aggregations under it:
    [latency], the [max] of a Painless script; [trace_group], the first
    term of [traceGroup]; [error_count], a filter on
    [traceGroupFields.statusCode] being the string 2; [last_updated], the
    [max] of [traceGroupFields.endTime].  The script is, line by line: if
    the document has a non-empty [traceGroupFields.durationInNanos], return
    [Math.round(value / 10000) / 100.0]; return [0]. *)
Theorem createDefaultTraceQuery_shape query :
  let q := createDefaultTraceQuery query in
  exists source,
    at_path q ["luceneQueryMode"] = Some (VStr "traces")
    /\ at_path q ["luceneQueryObj"]
       = Some (VObject
           [("size", VNum (num_of_Z 10));
            ("query", VObject
               [("bool", VObject
                   [("must", VArray
                       [Some (VObject
                          [("range", VObject
                              [("startTime", VObject
                                  [("gte", VStr "$timeFrom");
                                   ("lte", VStr "$timeTo")])])])] []);
                    ("filter", VArray [] []);
                    ("should", VArray [] []);
                    ("must_not", VArray [] [])])]);
            ("aggs", VObject
               [("traces", VObject
                   [("terms", VObject
                       [("field", VStr "traceId");
                        ("size", VNum (num_of_Z 100));
                        ("order", VObject [("_key", VStr "asc")])]);
                    ("aggs", VObject
                       [("latency", VObject
                           [("max", VObject
                               [("script", VObject
                                   [("source", VStr source);
                                    ("lang", VStr "painless")])])]);
                        ("trace_group", VObject
                           [("terms", VObject
                               [("field", VStr "traceGroup");
                                ("size", VNum (num_of_Z 1))])]);
                        ("error_count", VObject
                           [("filter", VObject
                               [("term", VObject
                                   [("traceGroupFields.statusCode",
                                     VStr "2")])])]);
                        ("last_updated", VObject
                           [("max", VObject
                               [("field",
                                 VStr "traceGroupFields.endTime")])])])])])])
    /\ map unindent (lines source)
       = [""; "if (doc.containsKey('traceGroupFields.durationInNanos') && !doc['traceGroupFields.durationInNanos'].empty) {";
          "return Math.round(doc['traceGroupFields.durationInNanos'].value / 10000) / 100.0";
          "}";
          "return 0";
          ""].
Proof.
  intros q. subst q. exists latency_script. split; [| split].
  - unfold createDefaultTraceQuery. rewrite object_literal_app. simpl.
    rewrite own_get_obj_set_other by reflexivity.
    rewrite own_get_obj_set_same. reflexivity.
  - rewrite createDefaultTraceQuery_body. reflexivity.
  - vm_compute. reflexivity.
Qed.

(** C6, amended.  For every base query, [createSingleTraceQuery] returns a
    query marked [isSingleTrace], in mode [traces], whose body has size
    1000 and two [must] clauses: [startTime] in [$timeFrom, $timeTo], and a
    [term] on [traceId] for the one trace id written in the function. *)
Theorem createSingleTraceQuery_shape query :
  let q := createSingleTraceQuery query in
  at_path q ["isSingleTrace"] = Some (VBool true)
  /\ at_path q ["luceneQueryMode"] = Some (VStr "traces")
  /\ at_path q ["luceneQueryObj"; "size"] = Some (num 1000)
  /\ at_path q ["luceneQueryObj"; "query"; "bool"; "must"]
     = Some (array_literal
               [object_literal
                  [("range", object_literal
                     [("startTime", object_literal
                        [("gte", VStr "$timeFrom"); ("lte", VStr "$timeTo")])])];
                object_literal
                  [("term", object_literal
                     [("traceId", VStr "0000000000000000061141afde96cda8")])]]).
Proof.
  intros q. subst q. rewrite !createSingleTraceQuery_body.
  split; [| split].
  - unfold createSingleTraceQuery. rewrite object_literal_app. simpl.
    rewrite !own_get_obj_set_other by reflexivity.
    rewrite own_get_obj_set_same. reflexivity.
  - unfold createSingleTraceQuery. rewrite object_literal_app. simpl.
    rewrite own_get_obj_set_other by reflexivity.
    rewrite own_get_obj_set_same. reflexivity.
  - split; reflexivity.
Qed.

End QueryFacts.

(** * Further properties *)



Section ResponseFacts.
Context {JN : JsNumber} {JE : JsEngine}.

Lemma Get_object props k : Get (VObject props) k = Normal (field props k).
Proof. unfold field. simpl. destruct (own_get props k); reflexivity. Qed.

(** where the row has its identifiers and its times from *)
Lemma span_row_fields props row :
  span_row (VObject props) = Normal row -> row_of_document props row.
Proof.
  unfold span_row. rewrite !Get_object. cbn [bind]. intros H.
  bind_inv H as hasError Hhas. bind_inv H as startMs Hstart.
  bind_inv H as nanos Hnanos. bind_inv H as attributes Hattributes.
  bind_inv H as spanTags HspanTags.
  bind_inv H as resourceAttributes Hresource.
  bind_inv H as serviceTags HserviceTags. bind_inv H as st Hst.
  bind_inv H as len Hlen. bind_inv H as lg Hlg. injection H as <-.
  unfold row_of_document. cbn.
  repeat split; try reflexivity; [exact Hstart |].
  exists nanos. split; [exact Hnanos | reflexivity].
Qed.

Lemma mapM_app {A B : Type} (f : A -> completion B) l1 l2 :
  mapM f (l1 ++ l2)
  = (ys1 <- mapM f l1 ;; ys2 <- mapM f l2 ;; Normal (ys1 ++ ys2)).
Proof.
  induction l1 as [| x r IH]; simpl.
  - destruct (mapM f l2); reflexivity.
  - destruct (f x) as [y | e |]; simpl; try reflexivity.
    rewrite IH. destruct (mapM f r) as [ys | e |]; simpl; try reflexivity.
    destruct (mapM f l2); reflexivity.
Qed.

(** X1.  A response of documents that are flat and typed (no key of a
    document is a lodash path or a key lodash refuses, its events are an
    array of typed events, its start time and duration are primitives)
    gives one row for each document, in the order of the documents.  The
    row has the document's [parentSpanId], [traceId], [spanId], [name] and
    [serviceName] as [parentSpanID], [traceID], [spanID], [operationName]
    and [serviceName]; its [startTime] is the time value of the document's
    date, and its [duration] the document's [durationInNanos] times
    [0.000001]. *)
Theorem flat_documents_give_rows spanList :
  total_on_primitives ToNumber -> total_on_primitives Date_getTime ->
  Forall (fun span => exists props,
            at_path span ["_source"] = Some (VObject props)
            /\ flat_keys props /\ typed_span props) spanList ->
  exists rows,
    transformTraceResponse spanList = Normal rows
    /\ Forall2 (fun span row => exists props,
                  at_path span ["_source"] = Some (VObject props)
                  /\ row_of_document props row) spanList rows.
Proof.
  intros Hnum Hdate Hall. unfold transformTraceResponse.
  induction Hall as [| span r (props & Hsrc & [Hnd Hflat] & Htyped) _ IH].
  - exists []. split; [reflexivity | constructor].
  - destruct IH as (rows & Hrows & Hfields).
    assert (Hget : Get span "_source" = Normal (VObject props)).
    { rewrite (Get_named span "_source");
        [| reflexivity | reflexivity | exact (at_path_container _ _ _ Hsrc)].
      rewrite Hsrc. reflexivity. }
    assert (Hnested : nestedSpan_of (VObject props) = Normal (VObject props)).
    { rewrite nestedSpan_of_object. apply (foldM_flat [] props); assumption. }
    destruct Htyped as (elems & Hev & Hevents & Hs & Hd).
    destruct (span_row_returns props elems [] Hnum Hdate Hev eq_refl eq_refl
                eq_refl Hevents Hs Hd) as [row Hrow].
    exists (row :: rows). split.
    + cbn [mapM]. unfold transformSpan at 1. rewrite Hget. cbn [bind].
      rewrite Hnested. cbn [bind]. rewrite Hrow. cbn [bind].
      rewrite Hrows. reflexivity.
    + constructor; [| exact Hfields]. exists props.
      split; [exact Hsrc | apply span_row_fields; exact Hrow].
Qed.

(** X2.  One document without events aborts the whole response: when the
    normalized form of a document has no [events] key, the call throws a
    [TypeError], whatever rows the documents before it gave and whatever
    documents follow; no row is returned. *)
Theorem missing_events_abort_the_response before span after rows
    spanData props :
  transformTraceResponse before = Normal rows ->
  Get span "_source" = Normal spanData ->
  nestedSpan_of spanData = Normal (VObject props) ->
  own_get props "events" = None ->
  transformTraceResponse (before ++ span :: after) = Throw TypeError.
Proof.
  unfold transformTraceResponse. intros Hbefore Hsrc Hnested Hev.
  rewrite mapM_app, Hbefore. cbn [bind mapM].
  unfold transformSpan at 1. rewrite Hsrc. cbn [bind]. rewrite Hnested.
  cbn [bind]. rewrite span_row_missing_events by exact Hev. reflexivity.
Qed.

End ResponseFacts.

Section RowFacts.
Context {JN : JsNumber} {JE : JsEngine}.

(** the steps of [span_row] that make the two lists of tags *)
Lemma span_row_tags nestedSpan row :
  span_row nestedSpan = Normal row ->
  exists hasError span attributes spanTags resource resourceAttributes,
    (hasError = true <-> stackTraces row <> None)
    /\ Get nestedSpan "span" = Normal span
    /\ GetOpt span "attributes" = Normal attributes
    /\ convertToKeyValue (if nullish attributes then VObject [] else attributes)
       = Normal spanTags
    /\ tags row = spanTags ++ [error_tag hasError]
    /\ Get nestedSpan "resource" = Normal resource
    /\ GetOpt resource "attributes" = Normal resourceAttributes
    /\ (if ToBoolean resourceAttributes
        then convertToKeyValue resourceAttributes
        else Normal []) = Normal (serviceTags row).
Proof.
  unfold span_row. intros H.
  bind_inv H as events Hev. bind_inv H as hasError Hhas.
  bind_inv H as parentSpanId H1. bind_inv H as traceId H2.
  bind_inv H as spanId H3. bind_inv H as name H4.
  bind_inv H as startTime H5. bind_inv H as startMs H6.
  bind_inv H as durationInNanos H7. bind_inv H as nanos H8.
  bind_inv H as serviceName H9. bind_inv H as span H10.
  bind_inv H as attributes H11. bind_inv H as spanTags H12.
  bind_inv H as resource H13. bind_inv H as resourceAttributes H14.
  bind_inv H as serviceTags H15. bind_inv H as st Hst.
  bind_inv H as events' Hev'. bind_inv H as len Hlen.
  bind_inv H as lg Hlg. injection H as <-. simpl.
  exists hasError, span, attributes, spanTags, resource, resourceAttributes.
  repeat split; auto.
  - intros ->. bind_inv Hst as ev He. bind_inv Hst as s Hs.
    injection Hst as <-. discriminate.
  - destruct hasError; [reflexivity |]. injection Hst as <-. congruence.
  - destruct (ToBoolean resourceAttributes) eqn:T; [| exact H15].
    bind_inv H15 as r Hr. bind_inv H15 as a Ha.
    rewrite H13 in Hr. injection Hr as <-.
    unfold GetOpt in H14. destruct (nullish resource) eqn:N.
    + injection H14 as <-. discriminate T.
    + rewrite H14 in Ha. injection Ha as <-. exact H15.
Qed.

(** X3.  The last tag of a row is the pair [error], and its value is
    [true] exactly when the row has the key [stackTraces]: the error icon
    and the stack traces never disagree. *)
Theorem error_tag_matches_stackTraces span row :
  transformSpan span = Normal row ->
  exists spanTags hasError,
    tags row = spanTags ++ [error_tag hasError]
    /\ (hasError = true <-> stackTraces row <> None).
Proof.
  unfold transformSpan. intros H.
  bind_inv H as spanData Hsrc. bind_inv H as nestedSpan Hnested.
  apply span_row_tags in H.
  destruct H as (hasError & sp & at1 & spanTags & rs & at2 & Hiff & _ & _ & _
                 & Htags & _).
  exists spanTags, hasError. auto.
Qed.

Lemma convertToKeyValue_empty : convertToKeyValue (VObject []) = Normal [].
Proof. reflexivity. Qed.

(** X4.  A span without attributes ([span] missing or [null], or no
    [attributes] in it) gets the pair [error] as its only tag, and a span
    whose [resource.attributes] is missing or falsy gets no service tag;
    neither is an error. *)
Theorem absent_attributes_give_no_tags nestedSpan row :
  span_row nestedSpan = Normal row ->
  (forall span attributes,
     Get nestedSpan "span" = Normal span ->
     GetOpt span "attributes" = Normal attributes ->
     nullish attributes = true ->
     exists hasError, tags row = [error_tag hasError])
  /\ (forall resource attributes,
        Get nestedSpan "resource" = Normal resource ->
        GetOpt resource "attributes" = Normal attributes ->
        ToBoolean attributes = false ->
        serviceTags row = []).
Proof.
  intros H. apply span_row_tags in H.
  destruct H as (hasError & sp & at1 & spanTags & rs & at2 & _ & Hsp & Hat1
                 & Hconv & Htags & Hrs & Hat2 & Hserv).
  split.
  - intros span attributes E1 E2 N.
    rewrite Hsp in E1. injection E1 as <-.
    rewrite Hat1 in E2. injection E2 as <-.
    rewrite N in Hconv. rewrite convertToKeyValue_empty in Hconv.
    injection Hconv as <-. exists hasError. exact Htags.
  - intros resource attributes E1 E2 T.
    rewrite Hrs in E1. injection E1 as <-.
    rewrite Hat2 in E2. injection E2 as <-.
    rewrite T in Hserv. injection Hserv as <-. reflexivity.
Qed.

Lemma mapM_pairs props all :
  (forall k v, In (k, v) props -> own_get all k = Some v) ->
  mapM (fun key => v <- Get (VObject all) key ;;
                   Normal {| kv_key := key; kv_value := v |})
       (map fst props)
  = Normal (map pair_of props).
Proof.
  induction props as [| [k v] r IH]; intros H; [reflexivity |].
  assert (E : Get (VObject all) k = Normal v).
  { simpl. rewrite (H k v) by (left; reflexivity). reflexivity. }
  cbn [map fst mapM]. rewrite E. cbn [bind].
  rewrite IH by (intros; apply H; right; assumption).
  reflexivity.
Qed.

Lemma own_get_In props k v :
  NoDup (map fst props) -> In (k, v) props -> own_get props k = Some v.
Proof.
  induction props as [| [k' v'] r IH]; simpl; intros Hnd Hin; [contradiction |].
  inversion Hnd as [| ? ? Hnotin Hnd']; subst.
  destruct Hin as [E | Hin].
  - injection E as -> ->. rewrite String.eqb_refl. reflexivity.
  - destruct (String.eqb k' k) eqn:E.
    + apply String.eqb_eq in E. subst k'. exfalso. apply Hnotin.
      apply (in_map fst) in Hin. exact Hin.
    + apply IH; assumption.
Qed.

(** X5.  [convertToKeyValue] of an object is one pair for each property,
    in the order of the properties, with the property's name and value.
    The names are not integers: those the engine lists first, whatever
    their place among the properties. *)
Theorem convertToKeyValue_object props :
  NoDup (map fst props) ->
  Forall (fun k => integer_name k = false) (map fst props) ->
  convertToKeyValue (VObject props) = Normal (map pair_of props).
Proof.
  intros Hnd _. unfold convertToKeyValue, Object_keys. cbn [nullish own_keys bind].
  apply mapM_pairs. intros k v. apply own_get_In. exact Hnd.
Qed.

(** X6.  [transformEventsIntoLogs] keeps the length and the order of the
    events: each event, with an error or without, gives one log whose
    timestamp is the date of [event.time] and whose only field is the pair
    [name] with [event.name]; a hole stays a hole. *)
Theorem one_log_per_event elems props lg :
  transformEventsIntoLogs (VArray elems props) = Normal lg ->
  Forall2 log_of elems lg.
Proof.
  unfold transformEventsIntoLogs, Array_map. intros H.
  bind_inv H as elems' Hr. apply array_receiver_normal in Hr.
  destruct Hr as (props' & E & _). injection E as <- _.
  apply mapM_Forall2 in H. eapply Forall2_impl; [| exact H].
  intros [event |] log Hl; simpl in *.
  - bind_inv Hl as y Hy. bind_inv Hy as time Ht. bind_inv Hy as ms Hms.
    bind_inv Hy as name Hn. injection Hy as <-. injection Hl as <-.
    exists time, ms, name. auto.
  - injection Hl as <-. reflexivity.
Qed.

(** X7.  When [getStackTraces] returns, it never returns an empty list:
    it returns [undefined] exactly when no event has, in its [attributes],
    an [error] that is truthy, and otherwise as many strings as there are
    such events. *)
Theorem getStackTraces_never_empty elems props st :
  getStackTraces (VArray elems props) = Normal st ->
  st <> Some []
  /\ (st = None <->
      forall e error, In e (present elems) -> error_of e = Some error ->
                      ToBoolean error = false)
  /\ (forall lines, st = Some lines ->
        List.length lines
        = List.length (filter error_event (present elems))).
Proof.
  intros H. apply getStackTraces_sound in H.
  destruct H as (l & _ & -> & Hlen).
  rewrite (filter_pointwise has_error error_event _ has_error_data) in Hlen.
  assert (Hnone : (forall e, In e (present elems) -> error_event e = false)
                  <-> (forall e error, In e (present elems) ->
                         error_of e = Some error -> ToBoolean error = false)).
  { unfold error_event. split.
    - intros Hall e error Hin He. specialize (Hall e Hin).
      rewrite He in Hall. exact Hall.
    - intros Hall e Hin. destruct (error_of e) as [error |] eqn:He;
        [apply (Hall e error Hin He) | reflexivity]. }
  rewrite <- Hnone. clear Hnone.
  assert (Hlines : forall lines,
            (if Nat.ltb 0 (List.length l) then Some l else None) = Some lines ->
            List.length lines
            = List.length (filter error_event (present elems))).
  { intros lines E. destruct (Nat.ltb 0 (List.length l)); [| discriminate E].
    injection E as <-. exact Hlen. }
  split; [| split; [| exact Hlines]]; clear Hlines.
  - destruct l; simpl; discriminate.
  - destruct l as [| s l]; simpl.
    + split; [| reflexivity]. intros _ e Hin.
      destruct (error_event e) eqn:E; [| reflexivity]. exfalso.
      symmetry in Hlen. apply length_zero_iff_nil in Hlen.
      assert (Hf : In e (filter error_event (present elems))).
      { apply filter_In. auto. }
      rewrite Hlen in Hf. exact Hf.
    + split; [discriminate |]. intros Hall. exfalso.
      destruct (filter error_event (present elems)) as [| e r] eqn:F;
        [discriminate Hlen |].
      assert (Hin : In e (filter error_event (present elems))).
      { rewrite F. left. reflexivity. }
      apply filter_In in Hin. destruct Hin as [Hin He].
      rewrite (Hall e Hin) in He. discriminate He.
Qed.

End RowFacts.



Section MorePathFacts.
Context {JN : JsNumber}.

Lemma strip_separator_plain d s :
  is_delimiter d = false -> strip_separator (String d s) = None.
Proof.
  unfold is_delimiter. intros H.
  destruct d as [[] [] [] [] [] [] [] []]; try reflexivity; discriminate H.
Qed.

Lemma empty_segment_dot s :
  empty_segment (String "." s)
  = match s with
    | EmptyString => true
    | _ => match strip_separator s with Some _ => true | None => false end
    end.
Proof. reflexivity. Qed.

Lemma empty_segment_last b :
  plain_segment b = true ->
  empty_segment (String "." b) = String.eqb b "".
Proof.
  destruct b as [| d r]; [reflexivity |]. simpl. intros H.
  apply andb_prop in H. destruct H as [Hd _]. apply negb_true_iff in Hd.
  rewrite empty_segment_dot, (strip_separator_plain d r Hd). reflexivity.
Qed.

Lemma empty_segment_inner b t :
  plain_segment b = true ->
  empty_segment (String "." (b ++ String "." t)) = String.eqb b "".
Proof.
  destruct b as [| d r]; [reflexivity |]. simpl. intros H.
  apply andb_prop in H. destruct H as [Hd _]. apply negb_true_iff in Hd.
  rewrite empty_segment_dot. cbn [append].
  rewrite (strip_separator_plain d _ Hd). reflexivity.
Qed.

Lemma flush_after_empty b :
  (if String.eqb b "" then [EmptyString] else []) ++ flush b = [b].
Proof. destruct b; reflexivity. Qed.

(** what the scan yields for the segments that follow a dot *)
Lemma scan_after_dot b more :
  Forall (fun s => plain_segment s = true) (b :: more) ->
  (if empty_segment (String "." (join_dots (b :: more))) then [EmptyString]
   else [])
  ++ scan (join_dots (b :: more)) "" 0
  = b :: more.
Proof.
  revert b. induction more as [| c more IH]; intros b H.
  - inversion H as [| ? ? Hb _]; subst. cbn [join_dots].
    rewrite (scan_plain_end b "") by exact Hb. cbn [append].
    rewrite empty_segment_last by exact Hb. apply flush_after_empty.
  - inversion H as [| ? ? Hb Hrest]; subst.
    change (join_dots (b :: c :: more))
      with (b ++ String "." (join_dots (c :: more)))%string.
    rewrite empty_segment_inner by exact Hb.
    rewrite scan_plain by exact Hb. cbn [append].
    change (scan (String "." (join_dots (c :: more))) b 0)
      with (flush b ++
            (if empty_segment (String "." (join_dots (c :: more)))
             then [EmptyString] else [])
            ++ scan (join_dots (c :: more)) "" 0).
    rewrite (IH c Hrest). rewrite app_assoc, flush_after_empty. reflexivity.
Qed.

(** A key of two or more segments joined by dots, the segments free of
    dots and brackets, is read as the path of exactly these segments, the
    empty ones among them. *)
Theorem stringToPath_splits_at_dots a b more :
  Forall (fun s => plain_segment s = true) (a :: b :: more) ->
  stringToPath (join_dots (a :: b :: more)) = a :: b :: more.
Proof.
  intros H. inversion H as [| ? ? Ha Hrest]; subst.
  unfold stringToPath.
  change (join_dots (a :: b :: more))
    with (a ++ String "." (join_dots (b :: more)))%string.
  rewrite scan_plain by exact Ha. cbn [append].
  change (scan (String "." (join_dots (b :: more))) a 0)
    with (flush a ++
          (if empty_segment (String "." (join_dots (b :: more)))
           then [EmptyString] else [])
          ++ scan (join_dots (b :: more)) "" 0).
  rewrite (scan_after_dot b more Hrest).
  destruct a as [| d r]; [reflexivity |].
  simpl in Ha. apply andb_prop in Ha. destruct Ha as [Hd _].
  unfold is_delimiter in Hd.
  destruct d as [[] [] [] [] [] [] [] []]; try reflexivity; discriminate Hd.
Qed.

End MorePathFacts.


Section SetFacts.
Context {JN : JsNumber} {JE : JsEngine}.


Lemma obj_set_twice props k x y :
  obj_set (obj_set props k x) k y = obj_set props k y.
Proof.
  induction props as [| [k' v'] r IH]; simpl.
  - rewrite String.eqb_refl. reflexivity.
  - destruct (String.eqb k' k) eqn:E; simpl; rewrite E; [reflexivity |].
    rewrite IH. reflexivity.
Qed.

(** *** One call of [set] on an object *)

Lemma assignValue_object props k v r :
  assignValue (VObject props) k v = Normal r ->
  r = VObject props \/ r = VObject (obj_set props k v).
Proof.
  unfold assignValue. cbn [own_value baseAssignValue].
  destruct (own_get props k) as [old |];
    [destruct (eq_value old v) |]; intros H; injection H as <-; auto.
Qed.

(** [walk] leaves an object as it is, or assigns to the first key of the
    path, which is then none of the keys [baseSet] refuses *)
Lemma walk_top props path v r :
  walk (VObject props) path v = Normal r ->
  r = VObject props
  \/ exists s rest x,
       path = s :: rest /\ unsafe_key s = false
       /\ r = VObject (obj_set props s x).
Proof.
  destruct path as [| s rest]; cbn [walk]; intros H.
  - injection H as <-. auto.
  - unfold toKey in H. destruct (unsafe_key s) eqn:U.
    + injection H as <-. auto.
    + destruct rest as [| next rest'].
      * apply assignValue_object in H. destruct H as [-> | ->]; [auto |].
        right. exists s, [], v. auto.
      * bind_inv H as objValue Hread. destruct (isObject objValue).
        -- bind_inv H as child Hchild. injection H as <-.
           right. exists s, (next :: rest'), child. auto.
        -- bind_inv H as assigned Hassign. bind_inv H as inside Hinside.
           destruct (isObject inside); [| discriminate H].
           bind_inv H as child Hchild. injection H as <-.
           right. exists s, (next :: rest'), child.
           split; [reflexivity |]. split; [exact U |].
           apply assignValue_object in Hassign.
           destruct Hassign as [-> | ->]; cbn [with_child];
             [| rewrite obj_set_twice]; reflexivity.
Qed.

Lemma set_top props path v r :
  Lodash.set (VObject props) path v = Normal r ->
  r = VObject props
  \/ exists s rest x,
       castPath path (VObject props) = s :: rest /\ unsafe_key s = false
       /\ r = VObject (obj_set props s x).
Proof.
  unfold Lodash.set, baseSet. cbn [nullish isObject negb]. apply walk_top.
Qed.

(** X9.  When [set(nestedSpan, key, value)] returns, it has touched one
    top-level property at most, the first segment of the key's path: every
    other top-level property of the object keeps its value, and the object
    is an object still. *)
Theorem set_leaves_other_properties props path v k r :
  hd_error (castPath path (VObject props)) <> Some k ->
  Lodash.set (VObject props) path v = Normal r ->
  exists props', r = VObject props' /\ own_get props' k = own_get props k.
Proof.
  intros Hk H. apply set_top in H.
  destruct H as [-> | (s & rest & x & Hpath & _ & ->)]; [eauto |].
  eexists. split; [reflexivity |]. apply own_get_obj_set_other.
  apply String.eqb_neq. intros ->. apply Hk. rewrite Hpath. reflexivity.
Qed.

Lemma Forall_keys_obj_set (P : string -> Prop) props k v :
  P k -> Forall P (map fst props) -> Forall P (map fst (obj_set props k v)).
Proof.
  intros Hk. induction props as [| [k' v'] r IH]; simpl; intros H.
  - constructor; [exact Hk | constructor].
  - inversion H; subst. destruct (String.eqb k' k); simpl; constructor; auto.
Qed.

Lemma foldM_set_from_safe spanData keys props nested :
  Forall (fun k => unsafe_key k = false) (map fst props) ->
  foldM (set_from spanData) keys (VObject props) = Normal nested ->
  exists props',
    nested = VObject props'
    /\ Forall (fun k => unsafe_key k = false) (map fst props').
Proof.
  revert props. induction keys as [| k r IH]; intros props Hp H; simpl in H.
  - injection H as <-. eauto.
  - bind_inv H as nested' Hstep. unfold set_from in Hstep.
    bind_inv Hstep as x Hx. apply set_top in Hstep.
    destruct Hstep as [-> | (s & rest & y & _ & Hs & ->)].
    + eapply IH; eassumption.
    + eapply IH; [| exact H]. apply Forall_keys_obj_set; assumption.
Qed.

(** X11.  Whatever the document, its normalized form is an object with
    no top-level property named [__proto__], [constructor] or
    [prototype]. *)
Theorem normalized_span_has_no_prototype_key spanData nestedSpan :
  nestedSpan_of spanData = Normal nestedSpan ->
  exists props,
    nestedSpan = VObject props
    /\ Forall (fun k => k <> "__proto__" /\ k <> "constructor"
                        /\ k <> "prototype") (map fst props).
Proof.
  unfold nestedSpan_of. intros H. bind_inv H as keys Hkeys.
  apply (foldM_set_from_safe spanData keys []) in H; [| constructor].
  destruct H as (props & -> & Hp). exists props. split; [reflexivity |].
  eapply Forall_impl; [| exact Hp]. intros k Hk. unfold unsafe_key in Hk.
  apply orb_false_elim in Hk. destruct Hk as [Hk H3].
  apply orb_false_elim in Hk. destruct Hk as [H1 H2].
  apply String.eqb_neq in H1, H2, H3. auto.
Qed.

(** *** Reading back what was set *)







Lemma join_dots_cons a b more :
  join_dots (a :: b :: more) = (a ++ String "." (join_dots (b :: more)))%string.
Proof. reflexivity. Qed.

(** the path of a key of several plain segments, on an object that has no
    property of that very name *)
Lemma castPath_dotted props a b more :
  Forall (fun s => plain_segment s = true) (a :: b :: more) ->
  has_own props (join_dots (a :: b :: more)) = false ->
  castPath (join_dots (a :: b :: more)) (VObject props) = a :: b :: more.
Proof.
  intros H Hown. unfold castPath, isKey.
  rewrite stringToPath_splits_at_dots by exact H.
  inversion H as [| ? ? Ha _]; subst.
  rewrite join_dots_cons in *.
  rewrite dotted_not_plain, dotted_is_deep by exact Ha.
  cbn [nullish negb HasProperty orb andb]. rewrite Hown. reflexivity.
Qed.


Lemma safe_plain segs :
  Forall (fun s => safe_segment s = true) segs ->
  Forall (fun s => plain_segment s = true) segs
  /\ Forall (fun s => unsafe_key s = false) segs.
Proof.
  induction 1 as [| s r Hs _ [IH1 IH2]]; [split; constructor |].
  unfold safe_segment in Hs. apply andb_prop in Hs. destruct Hs as [Hp Hu].
  apply negb_true_iff in Hu. split; constructor; assumption.
Qed.


Lemma fresh_safe segs :
  Forall (fun s => fresh_segment s = true) segs ->
  Forall (fun s => safe_segment s = true) segs
  /\ Forall (fun s => inherited s = false) segs.
Proof.
  induction 1 as [| s r Hs _ [IH1 IH2]]; [split; constructor |].
  unfold fresh_segment in Hs. apply andb_prop in Hs. destruct Hs as [Hp Hi].
  apply negb_true_iff in Hi. split; constructor; assumption.
Qed.

(** the first key of the group makes the containers *)
Lemma walk_makes_containers prefix k v :
  Forall (fun s => unsafe_key s = false) (prefix ++ [k]) ->
  Forall (fun s => inherited s = false) prefix ->
  Forall (fun s => isIndex s = false) (tl (prefix ++ [k])) ->
  walk (VObject []) (prefix ++ [k]) v = Normal (nest prefix (VObject [(k, v)])).
Proof.
  induction prefix as [| p ps IH]; intros Hu Hinh Hi.
  - inversion Hu as [| ? ? Hk _]; subst. cbn [app walk]. unfold toKey.
    rewrite Hk. apply (assignValue_fresh [] k v). reflexivity.
  - change ((p :: ps) ++ [k]) with (p :: ps ++ [k]) in *.
    inversion Hu as [| ? ? Hp Hu']; subst. cbn [tl] in Hi.
    inversion Hinh as [| ? ? Hpi Hinh']; subst.
    cbn [walk nest]. unfold toKey. rewrite Hp.
    destruct (ps ++ [k]) as [| next rest] eqn:E.
    + destruct ps; discriminate E.
    + inversion Hi as [| ? ? Hnext Hi']; subst.
      unfold read at 1. cbn [own_value own_get may_inherit]. rewrite Hpi.
      cbn [bind isObject]. rewrite Hnext.
      rewrite (assignValue_fresh [] p (VObject [])) by reflexivity.
      cbn [bind app]. unfold read. cbn [own_value own_get].
      rewrite String.eqb_refl. cbn [bind isObject].
      rewrite IH; [| exact Hu' | exact Hinh' |].
      * cbn [bind with_child obj_set]. rewrite String.eqb_refl. reflexivity.
      * destruct rest; [constructor | exact Hi'].
Qed.




End SetFacts.


Section Grouping.
Context {JN : JsNumber} {JE : JsEngine}.

Lemma append_assoc_mid (p : string) c s t :
  (p ++ String c (s ++ t))%string = ((p ++ String c s) ++ t)%string.
Proof. induction p as [| d p IH]; simpl; [reflexivity | rewrite IH; reflexivity]. Qed.

Lemma join_dots_snoc prefix k :
  prefix <> [] ->
  join_dots (prefix ++ [k]) = (join_dots prefix ++ String "." k)%string.
Proof.
  induction prefix as [| p ps IH]; [congruence |]. intros _.
  destruct ps as [| q qs]; [reflexivity |].
  change ((p :: q :: qs) ++ [k]) with (p :: (q :: qs) ++ [k]).
  change (join_dots (p :: (q :: qs) ++ [k]))
    with (p ++ String "." (join_dots ((q :: qs) ++ [k])))%string.
  rewrite IH by discriminate. rewrite join_dots_cons.
  apply append_assoc_mid.
Qed.

Lemma append_cancel (s t u : string) : (s ++ t = s ++ u)%string -> t = u.
Proof. induction s; simpl; intros H; [exact H | injection H; auto]. Qed.

Lemma grouped_keys_distinct prefix (attrs : list (string * value)) :
  prefix <> [] ->
  NoDup (map fst attrs) ->
  NoDup (map fst (map (fun kv => (join_dots (prefix ++ [fst kv]), snd kv))
                      attrs)).
Proof.
  intros Hne. rewrite map_map. cbn [fst].
  induction attrs as [| [k v] r IH]; simpl; intros H; [constructor |].
  inversion H as [| ? ? Hnotin Hnd]; subst. constructor; [| auto].
  intros Hin. apply Hnotin. apply in_map_iff in Hin.
  destruct Hin as ([k' v'] & E & Hin). simpl in E.
  rewrite !join_dots_snoc in E by exact Hne.
  apply append_cancel in E. injection E as ->.
  apply (in_map fst) in Hin. exact Hin.
Qed.

Lemma isObject_nest ps attrs : isObject (nest ps (VObject attrs)) = true.
Proof. destruct ps; reflexivity. Qed.

(** a later key of the group goes into the containers that are there *)
Lemma walk_into_containers prefix attrs k v :
  Forall (fun s => unsafe_key s = false) (prefix ++ [k]) ->
  own_get attrs k = None ->
  walk (nest prefix (VObject attrs)) (prefix ++ [k]) v
  = Normal (nest prefix (VObject (attrs ++ [(k, v)]))).
Proof.
  intros Hu Hfresh. induction prefix as [| p ps IH].
  - inversion Hu as [| ? ? Hk _]; subst. cbn [app walk nest]. unfold toKey.
    rewrite Hk. apply assignValue_fresh. exact Hfresh.
  - change ((p :: ps) ++ [k]) with (p :: ps ++ [k]) in *.
    inversion Hu as [| ? ? Hp Hu']; subst.
    cbn [walk nest]. unfold toKey. rewrite Hp.
    destruct (ps ++ [k]) as [| next rest] eqn:E.
    + destruct ps; discriminate E.
    + unfold read. cbn [own_value own_get]. rewrite String.eqb_refl.
      cbn [bind]. rewrite isObject_nest. rewrite IH by exact Hu'.
      cbn [bind with_child obj_set]. rewrite String.eqb_refl. reflexivity.
Qed.

Lemma nest_has_no_dotted_key p ps x k :
  plain_segment p = true ->
  HasProperty (nest (p :: ps) x) (join_dots ((p :: ps) ++ [k])) = false.
Proof.
  intros Hp. cbn [nest HasProperty]. unfold has_own. cbn [own_get].
  rewrite join_dots_snoc by discriminate.
  assert (E : String.eqb p (join_dots (p :: ps) ++ String "." k) = false).
  { destruct ps as [| q qs].
    - apply dotted_differs.
    - rewrite join_dots_cons.
      rewrite <- append_assoc_mid. apply dotted_differs. }
  rewrite E. reflexivity.
Qed.

Lemma grouped_path p ps k props :
  Forall (fun s => plain_segment s = true) ((p :: ps) ++ [k]) ->
  has_own props (join_dots ((p :: ps) ++ [k])) = false ->
  castPath (join_dots ((p :: ps) ++ [k])) (VObject props) = (p :: ps) ++ [k].
Proof.
  intros Hplain Hown.
  destruct ps as [| q qs]; apply castPath_dotted; assumption.
Qed.

Lemma grouped_path_nest p ps x k :
  Forall (fun s => plain_segment s = true) ((p :: ps) ++ [k]) ->
  castPath (join_dots ((p :: ps) ++ [k])) (nest (p :: ps) x) = (p :: ps) ++ [k].
Proof.
  intros Hplain. inversion Hplain as [| ? ? Hp _]; subst.
  pose proof (nest_has_no_dotted_key p ps x k Hp) as Hown.
  cbn [nest HasProperty] in Hown. cbn [nest].
  apply grouped_path; assumption.
Qed.

Lemma set_into_group p ps done k v :
  Forall (fun s => safe_segment s = true) (p :: ps) ->
  safe_segment k = true ->
  own_get done k = None ->
  Lodash.set (nest (p :: ps) (VObject done)) (group_key_of (p :: ps) (k, v)) v
  = Normal (nest (p :: ps) (VObject (done ++ [(k, v)]))).
Proof.
  intros Hprefix Hk Hfresh.
  assert (Hseg : Forall (fun s => safe_segment s = true) ((p :: ps) ++ [k])).
  { apply Forall_app. split; [exact Hprefix | constructor; [exact Hk | constructor]]. }
  destruct (safe_plain _ Hseg) as [Hplain Hu].
  unfold Lodash.set, baseSet, group_key_of. cbn [fst].
  change (nullish (nest (p :: ps) (VObject done))) with false.
  change (isObject (nest (p :: ps) (VObject done))) with true.
  cbv iota. cbn [negb].
  rewrite grouped_path_nest by exact Hplain.
  apply walk_into_containers; assumption.
Qed.

Lemma foldM_group p ps all done rest :
  Forall (fun s => safe_segment s = true) (p :: ps) ->
  Forall (fun s => safe_segment s = true) (map fst rest) ->
  NoDup (map fst (done ++ rest)) ->
  (forall kv, In kv rest ->
     own_get all (group_key_of (p :: ps) kv) = Some (snd kv)) ->
  foldM (set_from (VObject all)) (map (group_key_of (p :: ps)) rest)
        (nest (p :: ps) (VObject done))
  = Normal (nest (p :: ps) (VObject (done ++ rest))).
Proof.
  intros Hprefix. revert done.
  induction rest as [| [k v] r IH]; intros done Hsafe Hnd Hall.
  - rewrite app_nil_r. reflexivity.
  - cbn [map foldM]. unfold set_from at 1.
    assert (Hget : Get (VObject all) (group_key_of (p :: ps) (k, v)) = Normal v).
    { cbn [Get]. rewrite (Hall (k, v)) by (left; reflexivity). reflexivity. }
    rewrite Hget. cbn [bind].
    inversion Hsafe as [| ? ? Hk Hsafe']; subst.
    rewrite set_into_group; [| exact Hprefix | exact Hk |].
    + cbn [bind]. specialize (IH (done ++ [(k, v)])).
      rewrite <- app_assoc in IH. cbn [app] in IH. apply IH.
      * exact Hsafe'.
      * exact Hnd.
      * intros kv Hin. apply Hall. right. exact Hin.
    + apply own_get_None. rewrite map_app in Hnd. cbn [map fst] in Hnd.
      apply NoDup_remove_2 in Hnd. intros Hin. apply Hnd.
      apply in_or_app. left. exact Hin.
Qed.

(** X10.  Dot-notation keys that share a prefix are gathered under it: a
    document whose keys are [p1.p2...k] for distinct names [k] normalizes
    to the nested objects [{p1: {p2: ... {k: v, ...}}}], the names in the
    order of the document ([span.attributes.*] becomes one [attributes]
    object).  No segment of the prefix is the name of a member of
    [Object.prototype], into which the path would walk, and no segment
    after the first is an integer, for which lodash makes an array. *)
Theorem dotted_keys_are_grouped p ps attrs :
  Forall (fun s => fresh_segment s = true) (p :: ps) ->
  Forall (fun s => isIndex s = false) ps ->
  attrs <> [] ->
  NoDup (map fst attrs) ->
  Forall (fun k => safe_segment k = true /\ isIndex k = false) (map fst attrs) ->
  nestedSpan_of (grouped_document (p :: ps) attrs)
  = Normal (nest (p :: ps) (VObject attrs)).
Proof.
  intros Hfresh Hidx Hne Hnd Hattrs.
  destruct (fresh_safe _ Hfresh) as [Hprefix Hinh].
  destruct attrs as [| [k v] r]; [congruence |].
  set (all := map (fun kv => (join_dots ((p :: ps) ++ [fst kv]), snd kv))
                  ((k, v) :: r)).
  assert (Hall : forall kv, In kv ((k, v) :: r) ->
                   own_get all (group_key_of (p :: ps) kv) = Some (snd kv)).
  { intros kv Hin. apply own_get_In.
    - apply (grouped_keys_distinct (p :: ps) ((k, v) :: r));
        [discriminate | exact Hnd].
    - unfold all. apply in_map_iff. exists kv. auto. }
  assert (Hsafe : Forall (fun s => safe_segment s = true) (map fst ((k, v) :: r))).
  { eapply Forall_impl; [| exact Hattrs]. intros s [Hs _]. exact Hs. }
  assert (Hkeys : Object_keys (grouped_document (p :: ps) ((k, v) :: r))
                  = Normal (map (group_key_of (p :: ps)) ((k, v) :: r))).
  { unfold grouped_document, Object_keys. cbn [nullish own_keys].
    rewrite map_map. reflexivity. }
  unfold nestedSpan_of. rewrite Hkeys. cbn [bind].
  change (grouped_document (p :: ps) ((k, v) :: r)) with (VObject all).
  cbn [map foldM]. unfold set_from at 1.
  assert (Hget : Get (VObject all) (group_key_of (p :: ps) (k, v)) = Normal v).
  { cbn [Get]. rewrite (Hall (k, v)) by (left; reflexivity). reflexivity. }
  rewrite Hget. cbn [bind].
  inversion Hsafe as [| ? ? Hk Hsafe']; subst.
  inversion Hattrs as [| ? ? [_ Hki] _]; subst.
  assert (Hseg : Forall (fun s => safe_segment s = true) ((p :: ps) ++ [k])).
  { apply Forall_app. split; [exact Hprefix | constructor; [exact Hk | constructor]]. }
  destruct (safe_plain _ Hseg) as [Hplain Hu].
  assert (Hset : Lodash.set (VObject []) (group_key_of (p :: ps) (k, v)) v
                 = Normal (nest (p :: ps) (VObject [(k, v)]))).
  { unfold Lodash.set, baseSet, group_key_of. cbn [nullish isObject negb fst].
    rewrite grouped_path; [| exact Hplain | reflexivity].
    apply walk_makes_containers; [exact Hu | exact Hinh |].
    change ((p :: ps) ++ [k]) with (p :: ps ++ [k]). cbn [tl].
    apply Forall_app. split; [exact Hidx | constructor; [exact Hki | constructor]]. }
  rewrite Hset. cbn [bind].
  apply (foldM_group p ps all [(k, v)] r); auto.
  intros kv Hin. apply Hall. right. exact Hin.
Qed.

End Grouping.


Section MoreListFacts.
Context {JN : JsNumber}.

Lemma foldM_push_bucket_sound bs done c :
  foldM push_bucket bs (columns_of done) = Normal c ->
  c = columns_of (done ++ bs)
  /\ Forall (fun b => trace_group_buckets b <> []) bs.
Proof.
  revert done. induction bs as [| b r IH]; intros done H; cbn [foldM] in H.
  - injection H as <-. rewrite app_nil_r. split; [reflexivity | constructor].
  - bind_inv H as c' Hc. unfold push_bucket in Hc.
    destruct (trace_group_buckets b) as [| g gs] eqn:E; [discriminate Hc |].
    assert (E' : c' = columns_of (done ++ [b])).
    { cbn in Hc. injection Hc as <-.
      unfold columns_of. rewrite !map_app. cbn [map].
      unfold first_group. rewrite E. reflexivity. }
    rewrite E' in H. apply IH in H. rewrite <- app_assoc in H.
    destruct H as [-> Hall]. split; [reflexivity |].
    constructor; [congruence | exact Hall].
Qed.

Lemma collect_sound response c :
  collect response = Normal c ->
  exists r rs,
    response = r :: rs
    /\ c = columns_of (aggregations_traces_buckets r)
    /\ Forall (fun b => trace_group_buckets b <> [])
              (aggregations_traces_buckets r).
Proof.
  unfold collect. intros H. bind_inv H as r Hr.
  destruct response as [| r' rs]; [discriminate Hr |].
  injection Hr as ->. exists r, rs. split; [reflexivity |].
  apply (foldM_push_bucket_sound _ [] c). exact H.
Qed.

(** X12.  When [createListTracesDataFrame] returns, the frame has the
    five fields Trace Id, Trace Group, Latency (ms), Error Count and Last
    Updated, in this order and of types string, string, number, number and
    time, and every field has one value for each bucket: the columns have
    the same length and there are as many rows as buckets. *)
Theorem list_frame_schema targets response uid nm result :
  createListTracesDataFrame targets response uid nm = Normal result ->
  exists r rs frame,
    response = r :: rs /\ data result = [frame]
    /\ map name (frame_fields frame)
       = ["Trace Id"; "Trace Group"; "Latency (ms)"; "Error Count";
          "Last Updated"]
    /\ map type (frame_fields frame)
       = [FieldType_string; FieldType_string; FieldType_number;
          FieldType_number; FieldType_time]
    /\ Forall (fun f => List.length (values f)
                        = List.length (aggregations_traces_buckets r))
              (frame_fields frame)
    /\ List.length (frame_rows frame)
       = List.length (aggregations_traces_buckets r).
Proof.
  unfold createListTracesDataFrame. intros H.
  bind_inv H as c Hc. bind_inv H as refId Href. injection H as <-.
  apply collect_sound in Hc. destruct Hc as (r & rs & -> & -> & _).
  exists r, rs. eexists. split; [reflexivity |]. split; [reflexivity |].
  cbn [frame_fields map name type plain_field].
  split; [reflexivity |]. split; [reflexivity |]. split.
  - repeat constructor; cbn [values columns_of traceIds traceGroups latency
      errors lastUpdated]; apply length_map.
  - unfold frame_rows. cbn [frame_fields values columns_of traceIds].
    rewrite length_map, length_seq, length_map. reflexivity.
Qed.

(** X13.  [createListTracesDataFrame] throws when [targets] is empty
    (whatever the response) and when the response array is empty; a first
    response without buckets gives a frame without rows. *)
Theorem list_frame_edge_cases response uid nm :
  createListTracesDataFrame [] response uid nm = Throw TypeError
  /\ (forall targets, createListTracesDataFrame targets [] uid nm
                      = Throw TypeError)
  /\ (forall t ts rs,
        nullish t = false ->
        exists frame refId,
          createListTracesDataFrame (t :: ts)
            ({| aggregations_traces_buckets := [] |} :: rs) uid nm
          = Normal {| data := [frame]; key := refId |}
          /\ frame_rows frame = []).
Proof.
  split; [| split].
  - unfold createListTracesDataFrame.
    destruct (settles_collect response) as [[c ->] | ->]; reflexivity.
  - reflexivity.
  - intros t ts rs Ht. unfold createListTracesDataFrame. cbn [collect first bind
      aggregations_traces_buckets foldM].
    unfold refId_of. cbn [nth].
    destruct (Get_normal t "refId" Ht) as [refId ->]. cbn [bind].
    eexists. exists refId. split; reflexivity.
Qed.


End MoreListFacts.

Section MoreQueryFacts.
Context {JN : JsNumber}.

Lemma fold_obj_set_distinct props acc :
  NoDup (map fst (acc ++ props)) ->
  fold_left (fun ps e => obj_set ps (fst e) (snd e)) props acc = acc ++ props.
Proof.
  revert acc. induction props as [| [k v] r IH]; intros acc H; simpl.
  - rewrite app_nil_r. reflexivity.
  - rewrite obj_set_fresh.
    + rewrite IH; rewrite <- app_assoc; [reflexivity | exact H].
    + apply own_get_None. rewrite map_app in H. simpl in H.
      apply NoDup_remove_2 in H. intros Hin. apply H.
      apply in_or_app. left. exact Hin.
Qed.

Lemma object_literal_distinct props :
  NoDup (map fst props) -> object_literal props = VObject props.
Proof.
  intros H. unfold object_literal. rewrite (fold_obj_set_distinct props []); auto.
Qed.

(** what two more properties do to a copy of [props] *)
Lemma literal_with_two props k1 v1 k2 v2 k :
  NoDup (map fst props) ->
  String.eqb k1 k = false -> String.eqb k2 k = false ->
  at_path (object_literal (props ++ [(k1, v1); (k2, v2)])) [k]
  = own_get props k.
Proof.
  intros Hnd H1 H2. rewrite object_literal_app.
  rewrite (fold_obj_set_distinct props []) by exact Hnd. cbn [app].
  cbn [fold_left fst snd at_path].
  rewrite !own_get_obj_set_other by assumption.
  destruct (own_get props k); reflexivity.
Qed.

Lemma literal_with_three props k1 v1 k2 v2 k3 v3 k :
  NoDup (map fst props) ->
  String.eqb k1 k = false -> String.eqb k2 k = false ->
  String.eqb k3 k = false ->
  at_path (object_literal (props ++ [(k1, v1); (k2, v2); (k3, v3)])) [k]
  = own_get props k.
Proof.
  intros Hnd H1 H2 H3. rewrite object_literal_app.
  rewrite (fold_obj_set_distinct props []) by exact Hnd. cbn [app].
  cbn [fold_left fst snd at_path].
  rewrite !own_get_obj_set_other by assumption.
  destruct (own_get props k); reflexivity.
Qed.

(** X15.  The query builders keep the base query: every property of the
    base other than the ones a builder sets ([luceneQueryMode],
    [luceneQueryObj], and [isSingleTrace] for [createSingleTraceQuery]) is
    in the result with its value. *)
Theorem builders_keep_the_base_query props k :
  NoDup (map fst props) ->
  k <> "luceneQueryMode" -> k <> "luceneQueryObj" ->
  at_path (createDefaultTraceQuery (VObject props)) [k] = own_get props k
  /\ at_path (createOneTrace (VObject props)) [k] = own_get props k
  /\ (k <> "isSingleTrace" ->
      at_path (createSingleTraceQuery (VObject props)) [k] = own_get props k).
Proof.
  intros Hnd H1 H2.
  assert (E1 : String.eqb "luceneQueryMode" k = false)
    by (apply String.eqb_neq; congruence).
  assert (E2 : String.eqb "luceneQueryObj" k = false)
    by (apply String.eqb_neq; congruence).
  split; [| split].
  - apply literal_with_two; assumption.
  - apply literal_with_two; assumption.
  - intros H3. apply literal_with_three; try assumption.
    apply String.eqb_neq. congruence.
Qed.

(** X16.  The query editor's [createDefaultTraceQuery] sets [newQueryType]
    to [traces] and [newQueryObj] to an empty object, over whatever the
    base query had there, and keeps every other property of the base. *)
Theorem editor_query_marks_traces props k :
  NoDup (map fst props) ->
  at_path (QueryEditor.createDefaultTraceQuery (VObject props)) ["newQueryType"]
  = Some (VStr "traces")
  /\ at_path (QueryEditor.createDefaultTraceQuery (VObject props)) ["newQueryObj"]
     = Some (VObject [])
  /\ (k <> "newQueryType" -> k <> "newQueryObj" ->
      at_path (QueryEditor.createDefaultTraceQuery (VObject props)) [k]
      = own_get props k).
Proof.
  intros Hnd. unfold QueryEditor.createDefaultTraceQuery. split; [| split].
  - rewrite object_literal_app. cbn [fold_left fst snd at_path].
    rewrite own_get_obj_set_other by reflexivity.
    rewrite own_get_obj_set_same. reflexivity.
  - rewrite object_literal_app. cbn [fold_left fst snd at_path].
    rewrite own_get_obj_set_same. reflexivity.
  - intros H1 H2. apply literal_with_two; try assumption;
      apply String.eqb_neq; congruence.
Qed.

End MoreQueryFacts.

Section ShortCircuit.
Context {JN : JsNumber} {JE : JsEngine}.

Lemma filter_loop_throws f l :
  (forall x, settles (f x)) ->
  Exists (fun x => exists e, f x = Throw e) l ->
  filter_loop f l = Throw TypeError.
Proof.
  intros Hf. induction 1 as [x r [e Hx] | x r _ IH]; simpl.
  - destruct (Hf x) as [[b Hb] | ->]; [congruence | reflexivity].
  - destruct (Hf x) as [[b ->] | ->]; [| reflexivity].
    cbn [bind]. rewrite IH. reflexivity.
Qed.

Lemma settles_event_error e : settles (event_error e).
Proof.
  unfold event_error. apply settles_bind; [apply settles_Get |].
  intros a. apply settles_Get.
Qed.

(** X17.  [some] stops at the first hit and [filter] does not: when the
    first event has a truthy error, [spanHasError] returns [true] without
    reading the other events, but [getStackTraces] reads them all and
    throws if the [attributes] of one of them cannot be read. *)
Theorem some_stops_where_filter_goes_on event rest props :
  has_own props "some" = false -> has_own props "filter" = false ->
  has_error event = true ->
  spanHasError (VArray (Some event :: rest) props) = Normal true
  /\ (Exists (fun e => exists err, event_error e = Throw err) (present rest) ->
      getStackTraces (VArray (Some event :: rest) props) = Throw TypeError).
Proof.
  intros Hsome Hfilter Herr. split.
  - unfold spanHasError, Array_some, array_receiver. rewrite Hsome.
    cbn [bind present flat_map app some_loop].
    unfold has_error, holds in Herr.
    destruct (event_error event) as [v | |]; try discriminate Herr.
    cbn [bind]. rewrite Herr. reflexivity.
  - intros Hbad. unfold getStackTraces, Array_filter, array_receiver.
    rewrite Hfilter. cbn [bind].
    rewrite filter_loop_throws; [reflexivity | apply settles_event_error |].
    cbn [present flat_map app]. apply Exists_cons_tl. exact Hbad.
Qed.

End ShortCircuit.

Section Drafts.
Context {JN : JsNumber}.

(** X14.  The earlier draft [createTracesDataFrame] and
    [createListTracesDataFrame] succeed and fail together and build the same
    table (key, field names, types and values); the later one adds the
    [meta] entry for the table view and, on the Trace Id field only, the
    link that carries the datasource's uid and name. *)
Theorem drafts_build_the_same_table targets response uid nm :
  match createListTracesDataFrame targets response uid nm,
        createTracesDataFrame targets response with
  | Normal new, Normal old =>
      key new = key old
      /\ exists f f',
           data new = [f] /\ data old = [f']
           /\ map name (frame_fields f) = map name (frame_fields f')
           /\ map type (frame_fields f) = map type (frame_fields f')
           /\ map values (frame_fields f) = map values (frame_fields f')
           /\ meta_preferredVisualisationType f = Some "table"
           /\ meta_preferredVisualisationType f' = None
           /\ map (fun g => map internal (config_links g)) (frame_fields f)
              = [[{| datasourceUid := uid; datasourceName := nm;
                     internal_query :=
                       {| lq_query := "traceId: ${__value.raw}";
                          luceneQueryType := LuceneQueryType_Traces |} |}];
                 []; []; []; []]
           /\ Forall (fun g => config_links g = []) (frame_fields f')
  | Throw e, Throw e' => e = e'
  | _, _ => False
  end.
Proof.
  unfold createListTracesDataFrame, createTracesDataFrame.
  destruct (settles_collect response) as [[c ->] | ->]; cbn [bind];
    [| reflexivity].
  destruct (settles_Get (nth 0 targets VUndefined) "refId") as [[refId H] | H];
    unfold refId_of; rewrite H; cbn [bind]; [| reflexivity].
  split; [reflexivity |]. do 2 eexists.
  repeat split; try reflexivity. repeat constructor.
Qed.

End Drafts.

Section Stability.
Context {JN : JsNumber} {JE : JsEngine}.














End Stability.

(** * The statements on concrete documents *)

Import Example.

(** C1 on a span with one error event: the row is [row_with_error], whose
    [stackTraces] is the one line of the event [exception], whose error is
    [boom]. *)
Lemma stackTraces_iff_error_events_witness :
  transformSpan span_with_error = Normal row_with_error
  /\ stackTraces row_with_error = Some (Some ["exception: boom"])
  /\ filter error_event (events_of (VObject normalized_with_error))
     = [exception_event]
  /\ (exists nestedSpan,
        (spanData <- Get span_with_error "_source" ;; nestedSpan_of spanData)
        = Normal nestedSpan /\
        (stackTraces row_with_error <> None <->
         exists e error, In e (events_of nestedSpan)
                         /\ error_of e = Some error
                         /\ ToBoolean error = true) /\
        (forall st, stackTraces row_with_error = Some st ->
           exists lines,
             st = Some lines /\ lines <> []
             /\ Forall2 trace_line
                        (filter error_event (events_of nestedSpan)) lines))
  /\ exists row, transformSpan span_with_error = Normal row.
Proof.
  split; [reflexivity |]. split; [reflexivity |]. split; [reflexivity |].
  split.
  - apply (proj1 (stackTraces_iff_error_events span_with_error)
             row_with_error).
    reflexivity.
  - apply (proj2 (stackTraces_iff_error_events span_with_error)
             source_with_error normalized_with_error).
    + intros v _. unfold ToNumber. simpl. eexists. reflexivity.
    + intros v _. unfold Date_getTime. simpl. eexists. reflexivity.
    + reflexivity.
    + reflexivity.
    + exists [Some exception_event].
      split; [reflexivity | split; [| split]].
      * repeat constructor.
        exists [("name", VStr "exception"); ("time", VStr "...");
                ("attributes", VObject [("error", VStr "boom")])],
               [("error", VStr "boom")].
        repeat split;
          intros v E; vm_compute in E; injection E as <-; reflexivity.
      * intros v E. vm_compute in E. discriminate E.
      * intros v E. vm_compute in E. injection E as <-. reflexivity.
Defined.

(** C2 on [{traceId: 't', spanId: 's'}] *)
Lemma missing_events_throws_witness :
  own_get source_without_events "events" = None
  /\ transformSpan span_without_events = Throw TypeError.
Proof.
  split; [reflexivity |].
  apply (missing_events_throws span_without_events
           (VObject source_without_events) source_without_events);
    reflexivity.
Defined.

(** C3 as stated fails on [{a: 1, 'a.b': 2}]: normalization returns
    [{a: {b: 2}}], it does not fail. *)
Lemma conflicting_document_is_repaired :
  nestedSpan_of conflicting_document
  = Normal (VObject [("a", VObject [("b", num 2)])])
  /\ forall e, nestedSpan_of conflicting_document <> Throw e.
Proof.
  split; [reflexivity |]. intros e. vm_compute. discriminate.
Qed.

Lemma conflicting_paths_overwrite_witness :
  nestedSpan_of (VObject [("a", num 1); ("a.b", num 2)])
  = Normal (VObject [("a", VObject [("b", num 2)])])
  /\ nestedSpan_of (VObject [("a.b", num 2); ("a", num 1)])
     = Normal (VObject [("a", num 1)]).
Proof.
  destruct (conflicting_paths_overwrite "a" "b" (num 1) (num 2)) as [H1 H2];
    try reflexivity.
  split; [exact H1 | apply H2; reflexivity].
Defined.

(** C4 on the bucket [{key: 'abc', trace_group: {buckets: [{key:
    'checkout'}]}, latency: {value: 42.5}, error_count: {doc_count: 2},
    last_updated: {value: '2024-01-01T00:00:00Z'}}] *)
Lemma one_row_per_bucket_witness :
  exists frame refId,
    createListTracesDataFrame [target]
      [{| aggregations_traces_buckets := [checkout_bucket] |}] "uid" "name"
    = Normal {| data := [frame]; key := refId |}
    /\ Forall2 summary_of [checkout_bucket] (frame_rows frame).
Proof.
  apply (one_row_per_bucket target []
           {| aggregations_traces_buckets := [checkout_bucket] |} []
           "uid" "name").
  - reflexivity.
  - repeat constructor. discriminate.
Defined.

(** C5 as stated fails on a response whose second bucket has no trace
    group: what is thrown is a [TypeError]. *)
Lemma ungrouped_bucket_throws_TypeError :
  exists e,
    createListTracesDataFrame [target]
      [{| aggregations_traces_buckets := [checkout_bucket; ungrouped_bucket] |}]
      "uid" "name" = Throw e
    /\ error_name e <> "MissingAggregationData".
Proof.
  exists TypeError. split; [reflexivity | discriminate].
Qed.

Lemma bucket_without_group_throws_witness :
  createListTracesDataFrame [target]
    [{| aggregations_traces_buckets := [checkout_bucket; ungrouped_bucket] |}]
    "uid" "name" = Throw TypeError.
Proof.
  apply (bucket_without_group_throws [target]
           {| aggregations_traces_buckets :=
                [checkout_bucket; ungrouped_bucket] |} [] "uid" "name").
  right. left. reflexivity.
Defined.

(** C6 as stated fails for a caller that wants trace [abc]: the query asks
    for the trace id of the source text. *)
Lemma createSingleTraceQuery_ignores_caller :
  asks_for (createSingleTraceQuery target) "0000000000000000061141afde96cda8"
  /\ ~ asks_for (createSingleTraceQuery target) "abc".
Proof.
  split; [reflexivity |]. unfold asks_for. vm_compute. discriminate.
Qed.

(** C7 on the base query [{refId: 'A', query: 'traceId: abc'}]: the
    query that is returned, in full *)
Lemma createDefaultTraceQuery_shape_witness :
  createDefaultTraceQuery target
  = VObject
      [("refId", VStr "A"); ("query", VStr "traceId: abc");
       ("luceneQueryMode", VStr "traces");
       ("luceneQueryObj", VObject
          [("size", num 10);
           ("query", VObject
              [("bool", VObject
                  [("must", VArray
                      [Some (VObject
                         [("range", VObject
                             [("startTime", VObject
                                 [("gte", VStr "$timeFrom");
                                  ("lte", VStr "$timeTo")])])])] []);
                   ("filter", VArray [] []);
                   ("should", VArray [] []);
                   ("must_not", VArray [] [])])]);
           ("aggs", VObject
              [("traces", VObject
                  [("terms", VObject
                      [("field", VStr "traceId");
                       ("size", num 100);
                       ("order", VObject [("_key", VStr "asc")])]);
                   ("aggs", VObject
                      [("latency", VObject
                          [("max", VObject
                              [("script", VObject
                                  [("source", VStr latency_script);
                                   ("lang", VStr "painless")])])]);
                       ("trace_group", VObject
                          [("terms", VObject
                              [("field", VStr "traceGroup");
                               ("size", num 1)])]);
                       ("error_count", VObject
                          [("filter", VObject
                              [("term", VObject
                                  [("traceGroupFields.statusCode",
                                    VStr "2")])])]);
                       ("last_updated", VObject
                          [("max", VObject
                              [("field",
                                VStr "traceGroupFields.endTime")])])])])])])]
  /\ exists source,
       at_path (createDefaultTraceQuery target)
               ["luceneQueryObj"; "aggs"; "traces"; "aggs"; "latency"; "max";
                "script"; "source"]
       = Some (VStr source)
       /\ map unindent (lines source)
          = [""; "if (doc.containsKey('traceGroupFields.durationInNanos') && !doc['traceGroupFields.durationInNanos'].empty) {";
             "return Math.round(doc['traceGroupFields.durationInNanos'].value / 10000) / 100.0";
             "}";
             "return 0";
             ""].
Proof.
  split; [reflexivity |].
  destruct (createDefaultTraceQuery_shape target) as (source & _ & Hbody & Hlines).
  exists source. split; [| exact Hlines].
  change ["luceneQueryObj"; "aggs"; "traces"; "aggs"; "latency"; "max";
          "script"; "source"]
    with ("luceneQueryObj" :: ["aggs"; "traces"; "aggs"; "latency"; "max";
                               "script"; "source"]).
  rewrite at_path_step, Hbody. reflexivity.
Defined.

(** C8 on [[{name: 'exception', attributes: {error: 'boom'}}]], where
    [spanHasError] returns [true], and on the empty array *)
Lemma spanHasError_iff_witness :
  spanHasError (array_literal [exception_event]) = Normal true
  /\ spanHasError (array_literal []) = Normal false
  /\ exists b,
       spanHasError (array_literal [exception_event]) = Normal b /\
       (b = true <->
        exists e error, In e [exception_event] /\ error_of e = Some error
                        /\ ToBoolean error = true) /\
       ([exception_event] = [] -> b = false) /\
       (forall s, ToBoolean (VStr s) = negb (String.eqb s "")) /\
       (forall z, ToBoolean (VNum (num_of_Z z)) = negb (Z.eqb z 0)) /\
       (forall c, ToBoolean (VBool c) = c).
Proof.
  split; [reflexivity |]. split; [reflexivity |].
  apply (spanHasError_iff [Some exception_event] []).
  - reflexivity.
  - repeat constructor. exists (VObject [("error", VStr "boom")]).
    split; reflexivity.
Defined.

(** C9 as stated fails on [{'a[0]': 1}]: no key has a dot, and the
    normalized span is [{a: [1]}]. *)
Lemma bracket_document_changes :
  forallb (fun k => negb (has_dot k)) (own_keys bracket_document) = true
  /\ nestedSpan_of bracket_document
     = Normal (VObject [("a", VArray [Some (num 1)] [])])
  /\ nestedSpan_of bracket_document <> Normal bracket_document.
Proof.
  split; [reflexivity |]. split; [reflexivity |]. vm_compute. discriminate.
Qed.

Lemma flat_document_unchanged_witness :
  nestedSpan_of (VObject flat_document) = Normal (VObject flat_document).
Proof.
  apply (flat_document_unchanged flat_document).
  - repeat constructor; simpl; intuition discriminate.
  - repeat constructor.
Defined.

(** C10 on two responses that differ after their first element *)
Lemma only_first_response_witness :
  createListTracesDataFrame [target]
    [{| aggregations_traces_buckets := [checkout_bucket] |}] "uid" "name"
  = createListTracesDataFrame [target]
      [{| aggregations_traces_buckets := [checkout_bucket] |};
       {| aggregations_traces_buckets := [ungrouped_bucket] |}] "uid" "name"
  /\ createTracesDataFrame [target]
       [{| aggregations_traces_buckets := [checkout_bucket] |}]
     = createTracesDataFrame [target]
         [{| aggregations_traces_buckets := [checkout_bucket] |};
          {| aggregations_traces_buckets := [ungrouped_bucket] |}].
Proof.
  apply (only_first_response [target]
           [{| aggregations_traces_buckets := [checkout_bucket] |}]
           [{| aggregations_traces_buckets := [checkout_bucket] |};
            {| aggregations_traces_buckets := [ungrouped_bucket] |}]
           "uid" "name").
  reflexivity.
Defined.

(** * The further statements on concrete documents *)

Import MoreExamples.

(** X1 on a response of one flat document *)
Lemma flat_documents_give_rows_witness :
  transformTraceResponse [frontend_span] = Normal [frontend_row]
  /\ exists rows,
       transformTraceResponse [frontend_span] = Normal rows
       /\ Forall2 (fun span row => exists props,
                     at_path span ["_source"] = Some (VObject props)
                     /\ row_of_document props row) [frontend_span] rows.
Proof.
  split; [reflexivity |].
  apply (flat_documents_give_rows [frontend_span]).
  - intros v _. unfold ToNumber. simpl. eexists. reflexivity.
  - intros v _. unfold Date_getTime. simpl. eexists. reflexivity.
  - repeat constructor. exists frontend_source. split; [reflexivity |].
    split; [split |].
    + repeat constructor; simpl; intuition discriminate.
    + repeat constructor.
    + exists []. split; [reflexivity |]. split; [constructor |].
      split; intros v E; vm_compute in E; injection E as <-; reflexivity.
Defined.

(** X2 on a response whose second document has no events *)
Lemma missing_events_abort_the_response_witness :
  transformTraceResponse [frontend_span] = Normal [frontend_row]
  /\ transformTraceResponse
       [frontend_span; span_without_events; frontend_span]
     = Throw TypeError.
Proof.
  split; [reflexivity |].
  apply (missing_events_abort_the_response [frontend_span]
           span_without_events [frontend_span] [frontend_row]
           (VObject source_without_events) source_without_events);
    reflexivity.
Defined.

(** X3 on the span with one error event *)
Lemma error_tag_matches_stackTraces_witness :
  exists spanTags hasError,
    tags row_with_error = spanTags ++ [error_tag hasError]
    /\ (hasError = true <-> stackTraces row_with_error <> None).
Proof.
  apply (error_tag_matches_stackTraces span_with_error row_with_error).
  reflexivity.
Defined.

(** X4 on a span that has neither [span] nor [resource] *)
Lemma absent_attributes_give_no_tags_witness :
  span_row bare_span = Normal bare_row
  /\ (exists hasError, tags bare_row = [error_tag hasError])
  /\ serviceTags bare_row = [].
Proof.
  assert (Hrow : span_row bare_span = Normal bare_row) by reflexivity.
  split; [exact Hrow |].
  destruct (absent_attributes_give_no_tags bare_span bare_row Hrow)
    as [Htags Hservice].
  split.
  - apply (Htags VUndefined VUndefined); reflexivity.
  - apply (Hservice VUndefined VUndefined); reflexivity.
Defined.

(** X5 on [{'http@status_code': 200, component: 'net/http'}] *)
Lemma convertToKeyValue_object_witness :
  convertToKeyValue (VObject http_attributes)
  = Normal [{| kv_key := "http@status_code"; kv_value := num 200 |};
            {| kv_key := "component"; kv_value := VStr "net/http" |}].
Proof.
  apply (convertToKeyValue_object http_attributes).
  - repeat constructor; simpl; intuition discriminate.
  - repeat constructor.
Defined.

(** X6 on the array of the one event [exception] *)
Lemma one_log_per_event_witness :
  Forall2 log_of [Some exception_event] [Some exception_log].
Proof.
  apply (one_log_per_event [Some exception_event] [] [Some exception_log]).
  reflexivity.
Defined.

(** X7 on the same array, and on the array of an event without error *)
Lemma getStackTraces_never_empty_witness :
  getStackTraces (array_literal [exception_event])
  = Normal (Some ["exception: boom"])
  /\ getStackTraces (array_literal [quiet_event]) = Normal None
  /\ Some ["exception: boom"] <> Some []
  /\ (Some ["exception: boom"] = None <->
      forall e error, In e [exception_event] -> error_of e = Some error ->
                      ToBoolean error = false)
  /\ (forall lines, Some ["exception: boom"] = Some lines ->
        List.length lines
        = List.length (filter error_event [exception_event])).
Proof.
  split; [reflexivity |]. split; [reflexivity |].
  apply (getStackTraces_never_empty [Some exception_event] []
           (Some ["exception: boom"])).
  reflexivity.
Defined.


(** X9 on [{traceId: 't'}] and the key [span.attributes.component] *)
Lemma set_leaves_other_properties_witness :
  exists props',
    VObject [("traceId", VStr "t");
             ("span", VObject [("attributes", VObject
                        [("component", VStr "net/http")])])]
    = VObject props'
    /\ own_get props' "traceId" = own_get [("traceId", VStr "t")] "traceId".
Proof.
  apply (set_leaves_other_properties [("traceId", VStr "t")]
           "span.attributes.component" (VStr "net/http") "traceId").
  - vm_compute. discriminate.
  - reflexivity.
Defined.

(** X10 on [{'span.attributes.http@status_code': 200,
    'span.attributes.component': 'net/http'}] *)
Lemma dotted_keys_are_grouped_witness :
  nestedSpan_of
    (VObject [("span.attributes.http@status_code", num 200);
              ("span.attributes.component", VStr "net/http")])
  = Normal (VObject [("span", VObject [("attributes",
                                        VObject http_attributes)])]).
Proof.
  apply (dotted_keys_are_grouped "span" ["attributes"] http_attributes).
  - repeat constructor.
  - repeat constructor.
  - discriminate.
  - repeat constructor; simpl; intuition discriminate.
  - repeat constructor.
Defined.

(** X11 on [{constructor: 1, traceId: 't'}] *)
Lemma normalized_span_has_no_prototype_key_witness :
  exists props,
    VObject [("traceId", VStr "t")] = VObject props
    /\ Forall (fun k => k <> "__proto__" /\ k <> "constructor"
                        /\ k <> "prototype") (map fst props).
Proof.
  apply (normalized_span_has_no_prototype_key constructor_document
           (VObject [("traceId", VStr "t")])).
  reflexivity.
Defined.

(** X12 on the response of the one bucket [abc] *)
Lemma list_frame_schema_witness :
  exists result,
    createListTracesDataFrame [target] [checkout_response] "uid" "name"
    = Normal result
    /\ exists r rs frame,
         [checkout_response] = r :: rs /\ data result = [frame]
         /\ map name (frame_fields frame)
            = ["Trace Id"; "Trace Group"; "Latency (ms)"; "Error Count";
               "Last Updated"]
         /\ map type (frame_fields frame)
            = [FieldType_string; FieldType_string; FieldType_number;
               FieldType_number; FieldType_time]
         /\ Forall (fun f => List.length (values f)
                             = List.length (aggregations_traces_buckets r))
                   (frame_fields frame)
         /\ List.length (frame_rows frame)
            = List.length (aggregations_traces_buckets r).
Proof.
  eexists. split; [reflexivity |].
  eapply (list_frame_schema [target] [checkout_response] "uid" "name").
  reflexivity.
Defined.

(** X13 with the target [A] *)
Lemma list_frame_edge_cases_witness :
  createListTracesDataFrame [] [checkout_response] "uid" "name"
  = Throw TypeError
  /\ createListTracesDataFrame [target] [] "uid" "name" = Throw TypeError
  /\ exists frame refId,
       createListTracesDataFrame [target]
         [{| aggregations_traces_buckets := [] |}] "uid" "name"
       = Normal {| data := [frame]; key := refId |}
       /\ frame_rows frame = [].
Proof.
  destruct (list_frame_edge_cases [checkout_response] "uid" "name")
    as (H1 & H2 & H3).
  split; [exact H1 |]. split; [apply H2 |].
  apply (H3 target [] []). reflexivity.
Defined.

(** X15 on the base query [{refId: 'A', query: 'traceId: abc'}] *)
Lemma builders_keep_the_base_query_witness :
  at_path (createDefaultTraceQuery target) ["refId"] = Some (VStr "A")
  /\ at_path (createOneTrace target) ["refId"] = Some (VStr "A")
  /\ at_path (createSingleTraceQuery target) ["refId"] = Some (VStr "A").
Proof.
  destruct (builders_keep_the_base_query
              [("refId", VStr "A"); ("query", VStr "traceId: abc")] "refId")
    as (H1 & H2 & H3).
  - repeat constructor; simpl; intuition discriminate.
  - discriminate.
  - discriminate.
  - split; [exact H1 |]. split; [exact H2 |]. apply H3. discriminate.
Defined.

(** X16 on the same base query *)
Lemma editor_query_marks_traces_witness :
  at_path (QueryEditor.createDefaultTraceQuery target) ["newQueryType"]
  = Some (VStr "traces")
  /\ at_path (QueryEditor.createDefaultTraceQuery target) ["newQueryObj"]
     = Some (VObject [])
  /\ at_path (QueryEditor.createDefaultTraceQuery target) ["refId"]
     = Some (VStr "A").
Proof.
  destruct (editor_query_marks_traces
              [("refId", VStr "A"); ("query", VStr "traceId: abc")] "refId")
    as (H1 & H2 & H3).
  - repeat constructor; simpl; intuition discriminate.
  - split; [exact H1 |]. split; [exact H2 |]. apply H3; discriminate.
Defined.

(** X17 on [[exception, broken]]: the second event has no [attributes] *)
Lemma some_stops_where_filter_goes_on_witness :
  spanHasError (array_literal [exception_event; broken_event]) = Normal true
  /\ getStackTraces (array_literal [exception_event; broken_event])
     = Throw TypeError.
Proof.
  destruct (some_stops_where_filter_goes_on exception_event
              [Some broken_event] []) as [H1 H2]; try reflexivity.
  split; [exact H1 |]. apply H2. left. exists TypeError. reflexivity.
Defined.

